(** * Momentum: the practice-time dashboard of piano-portfolio/scr/App.jsx

    A shallow embedding of the session aggregator (the calendar sync with its
    merge, the per-day totals and the cumulative average) and of the view
    logic built on it (the range filter and the trend indicator), followed by
    the properties the specification states about them.

    Conventions of the embedding.
    - A JavaScript [Date] is its time value: milliseconds since the epoch, in
      UTC, as a [Z].  Only valid dates are modelled.
    - A JavaScript number holding a duration or an average is an exact
      rational ([Q]); equalities between such numbers are stated with [==].
    - The text [d.toISOString().split('T')[0]] names the UTC calendar day of
      [d] as YYYY-MM-DD.  It is represented by the number of that day (days
      since the epoch).  [Calendar.isoText] is the text of a day number; on
      the years 0000 to 9999 two texts compare as strings the way the two
      numbers do ([isoText_compare]), so the tests of equality and of order
      that the code makes on texts are made here on numbers.
    - The host supplies two things the code reads: the clock ([new Date()],
      the parameter [now]) and the time zone, taken as a fixed offset [tz] in
      milliseconds (local time = UTC + [tz]). *)

From Stdlib Require Import ZArith QArith Qround Qabs Lia Lqa Ascii DecimalString.
From stdpp Require Import base list gmap sorting strings.

Local Open Scope Z_scope.

(** ** Dates *)

Module JSDate.

Definition msPerDay : Z := 86400000.

(** [d.toISOString().split('T')[0]], as a day number. *)
Definition isoDay (t : Z) : Z := t / msPerDay.

(** The local calendar day [t] falls on. *)
Definition localDay (tz t : Z) : Z := (t + tz) / msPerDay.

(** [d.setHours(0,0,0,0)]: midnight, local time, of the local day of [t]. *)
Definition setHours0 (tz t : Z) : Z := localDay tz t * msPerDay - tz.

(** [d.setDate(d.getDate() + k)]: the day of the month moves by [k] and the
    local time within the day is kept, so with a fixed offset the time value
    moves by [k] whole days. *)
Definition addDays (t k : Z) : Z := t + k * msPerDay.

End JSDate.

(** ** Sessions *)

Inductive Source := csv | google.

Record Session := mkSession {
  id : string;
  start : Z;
  duration : Q;
  source : Source
}.

(** [arr.sort((a, b) => a.start - b.start)]: the sort of JavaScript arrays is
    stable, and so is this insertion sort (an element goes before the first
    one that starts at the same time or later). *)
Fixpoint insertByStart (s : Session) (l : list Session) : list Session :=
  match l with
  | [] => [s]
  | x :: l' =>
      if start s <=? start x then s :: x :: l' else x :: insertByStart s l'
  end.

Fixpoint sortByStart (l : list Session) : list Session :=
  match l with
  | [] => []
  | s :: l' => insertByStart s (sortByStart l')
  end.

(** ** The calendar service *)

Definition TARGET_CALENDAR_NAME : string := "ATracker".

Record CalendarEntry := mkCalendar {
  cal_id : string;
  summary : string
}.

(** [e.start] and [e.end] of an event: [dateTime] is [None] when the field is
    absent or empty (all-day events carry [date] instead), otherwise the time
    value [new Date(dateTime)] parses it to. *)
Record EventTime := mkEventTime { dateTime : option Z }.

Record Event := mkEvent {
  ev_id : string;
  ev_start : EventTime;
  ev_end : EventTime
}.

(** An awaited request either resolves or rejects. *)
Inductive Response (A : Type) :=
  | Resolved (result : A)
  | Rejected (error : string).
Arguments Resolved {A} result.
Arguments Rejected {A} error.

Record Gapi := mkGapi {
  calendarList_list : Response (list CalendarEntry);
  events_list : string -> Response (list Event)
}.

(** The callback of [events.result.items.map]. *)
Definition eventToSession (e : Event) : option Session :=
  match dateTime (ev_start e), dateTime (ev_end e) with
  | Some start, Some end_ =>
      let duration := (inject_Z (end_ - start) / 1000)%Q in
      Some {| id := ev_id e; start := start; duration := duration;
              source := google |}
  | _, _ => None
  end.

(** [.filter(Boolean)] on an array of sessions and nulls. *)
Definition filterBoolean {A : Type} (l : list (option A)) : list A :=
  omap (fun x => x) l.

Definition newSessions (items : list Event) : list Session :=
  filterBoolean (map eventToSession items).

(** The updater passed to [setSessions]. *)
Definition mergeSessions (newSessions prev : list Session) : list Session :=
  let existingIds : gset Z := list_to_set (map start prev) in
  let uniqueNew := filter (fun n => start n ∉ existingIds) newSessions in
  sortByStart (prev ++ uniqueNew).

(** ** The day series *)

(** One point of the chart.  [date] is the day the entry stands for and
    [formattedDate] its label, e.g. Dec 17. *)
Record DayEntry := mkDayEntry {
  date : Z;
  average : Q;
  dailyPlay : Q;
  formattedDate : string
}.

(** A JavaScript [Map] from day to seconds: iteration follows the order in
    which the keys were first set, and setting a key that is present
    overwrites its value in place. *)
Module DayMap.

Definition t := list (Z * Q).

Fixpoint get (k : Z) (m : t) : option Q :=
  match m with
  | [] => None
  | (k', v) :: m' => if k =? k' then Some v else get k m'
  end.

Definition has (k : Z) (m : t) : bool :=
  match get k m with Some _ => true | None => false end.

Fixpoint set (k : Z) (v : Q) (m : t) : t :=
  match m with
  | [] => [(k, v)]
  | (k', v') :: m' =>
      if k =? k' then (k', v) :: m' else (k', v') :: set k v m'
  end.

End DayMap.

(** The civil calendar (proleptic Gregorian) behind the texts of dates.  A
    day number is split into its era of 400 years, which runs from 1 March
    and has 146097 days, and the day within that era. *)
Module Calendar.

Definition daysPerEra : Z := 146097.

(** Year within the era, month (1..12) and day of the month of day [doe] of
    an era; January and February belong to the year after. *)
Definition civilOfEra (doe : Z) : Z * Z * Z :=
  let yoe := (doe - doe / 1460 + doe / 36524 - doe / 146096) / 365 in
  let doy := doe - (365 * yoe + yoe / 4 - yoe / 100) in
  let mp := (5 * doy + 2) / 153 in
  let d := doy - (153 * mp + 2) / 5 + 1 in
  let m := if mp <? 10 then mp + 3 else mp - 9 in
  (yoe + (if m <=? 2 then 1 else 0), m, d).

(** Year, month and day of the month of a day number. *)
Definition civil (day : Z) : Z * Z * Z :=
  let z := day + 719468 in
  let '(y, m, d) := civilOfEra (z mod daysPerEra) in
  (y + z / daysPerEra * 400, m, d).

Definition digit (n : Z) : Ascii.ascii := Ascii.ascii_of_N (48 + Z.to_N n).

(** Two and four decimal digits, zero-padded, put before [k]. *)
Definition pad2 (n : Z) (k : string) : string :=
  String (digit (n / 10)) (String (digit (n mod 10)) k).

Definition pad4 (n : Z) (k : string) : string :=
  pad2 (n / 100) (pad2 (n mod 100) k).

(** The year as [toISOString] writes it: four digits, or a sign and six
    digits outside 0..9999. *)
Definition yearText (y : Z) (k : string) : string :=
  if (0 <=? y) && (y <=? 9999) then pad4 y k
  else
    String (if y <? 0 then "-"%char else "+"%char)
      (pad2 (Z.abs y / 10000) (pad4 (Z.abs y mod 10000) k)).

(** The text YYYY-MM-DD that [d.toISOString().split('T')[0]] gives for a date
    on day [day]: the text the day numbers of this development stand for. *)
Definition isoText (day : Z) : string :=
  let '(y, m, d) := civil day in
  yearText y
    (String "-"%char (pad2 m (String "-"%char (pad2 d EmptyString)))).

(** The order of dates, on year, month and day. *)
Definition tripleCompare (a b : Z * Z * Z) : comparison :=
  let '(y1, m1, d1) := a in
  let '(y2, m2, d2) := b in
  match y1 ?= y2 with
  | Eq => match m1 ?= m2 with Eq => d1 ?= d2 | c => c end
  | c => c
  end.

(** The days of the years 0000 to 9999. *)
Definition firstDay0000 : Z := -719528.
Definition lastDay9999 : Z := 2932896.

Definition fourDigitYear (day : Z) : Prop :=
  firstDay0000 <= day <= lastDay9999.

(** The check made of the days of an era, one by one: the date of a day has
    a year of the era, a month and a day of the month, and the date of the
    next day is later.  [today] is the date of day [doe]. *)
Definition eraDayOk (today : Z * Z * Z) : bool :=
  let '(y, m, d) := today in
  (0 <=? y) && (y <=? 400) && (1 <=? m) && (m <=? 12)
  && (1 <=? d) && (d <=? 31).

Definition eraStepOk (today next : Z * Z * Z) : bool :=
  match tripleCompare today next with
  | Lt => true
  | _ => false
  end.

Fixpoint eraCheck (n : nat) (doe : Z) (today : Z * Z * Z) : bool :=
  match n with
  | O => eraDayOk today
  | S n' =>
      let next := civilOfEra (doe + 1) in
      eraDayOk today && eraStepOk today next && eraCheck n' (doe + 1) next
  end.

End Calendar.

Definition monthAndDay (day : Z) : Z * Z :=
  let '(_, m, d) := Calendar.civil day in (m, d).

Definition monthShort (m : Z) : string :=
  nth (Z.to_nat (m - 1))
    ["Jan"; "Feb"; "Mar"; "Apr"; "May"; "Jun";
     "Jul"; "Aug"; "Sep"; "Oct"; "Nov"; "Dec"]%string ""%string.

(** The decimal numeral of an integer, as [String(n)] writes it. *)
Definition numeral (n : Z) : string := NilZero.string_of_int (Z.to_int n).

(** [formatDate]: the date text is parsed as midnight UTC of that day and
    shown as the local date, month and day. *)
Definition formatDate (tz : Z) (dateStr : Z) : string :=
  let d := dateStr * JSDate.msPerDay in
  let '(m, dd) := monthAndDay (JSDate.localDay tz d) in
  (monthShort m ++ " " ++ numeral dd)%string.

(** [while (curr <= today) { dayMap.set(day of curr, 0); curr += 1 day }].
    The loop is unrolled [fuel] times. *)
Fixpoint fillDays (fuel : nat) (curr today : Z) (dayMap : DayMap.t)
  : DayMap.t :=
  match fuel with
  | O => dayMap
  | S fuel' =>
      if curr <=? today
      then fillDays fuel' (JSDate.addDays curr 1) today
             (DayMap.set (JSDate.isoDay curr) 0%Q dayMap)
      else dayMap
  end.

(** The loop as the code runs it: a run ends when the test fails. *)
Inductive fillDaysRun (today : Z) : Z -> DayMap.t -> DayMap.t -> Prop :=
  | fillDays_exit curr dayMap :
      today < curr -> fillDaysRun today curr dayMap dayMap
  | fillDays_iter curr dayMap dayMap' :
      curr <= today ->
      fillDaysRun today (JSDate.addDays curr 1)
        (DayMap.set (JSDate.isoDay curr) 0%Q dayMap) dayMap' ->
      fillDaysRun today curr dayMap dayMap'.

(** Iterations the loop needs from [curr]. *)
Definition daysToFill (curr today : Z) : nat :=
  Z.to_nat ((today - curr) / JSDate.msPerDay + 1).

(** The body of [sorted.forEach]. *)
Definition addPlay (dayMap : DayMap.t) (s : Session) : DayMap.t :=
  let dStr := JSDate.isoDay (start s) in
  if DayMap.has dStr dayMap
  then DayMap.set dStr (default 0%Q (DayMap.get dStr dayMap) + duration s)%Q
         dayMap
  else dayMap.

(** [for (const [dateStr, dailySeconds] of dayMap)] with its two counters. *)
Fixpoint dataPoints (tz : Z) (cumulativeSeconds : Q) (daysElapsed : Z)
    (entries : DayMap.t) : list DayEntry :=
  match entries with
  | [] => []
  | (dateStr, dailySeconds) :: rest =>
      let daysElapsed := daysElapsed + 1 in
      let cumulativeSeconds := (cumulativeSeconds + dailySeconds)%Q in
      let averageSoFar := (cumulativeSeconds / inject_Z daysElapsed)%Q in
      {| date := dateStr; average := averageSoFar;
         dailyPlay := dailySeconds;
         formattedDate := formatDate tz dateStr |}
      :: dataPoints tz cumulativeSeconds daysElapsed rest
  end.

(** The map of the days once the sessions are sorted, the days from the
    earliest session to today are filled in and the play time is added:
    [chartData] up to the loop of the averages. *)
Definition filledDayMap (tz now : Z) (sessions : list Session) : DayMap.t :=
  match sortByStart sessions with
  | [] => []
  | (first :: _) as sorted =>
      let startDate := start first in
      let curr := JSDate.setHours0 tz startDate in
      let today := JSDate.setHours0 tz now in
      let dayMap := fillDays (daysToFill curr today) curr today [] in
      fold_left addPlay sorted dayMap
  end.

(** [chartData], for the clock [now] in the zone [tz]. *)
Definition chartData (tz now : Z) (sessions : list Session)
  : list DayEntry :=
  if (length sessions =? 0)%nat then []
  else dataPoints tz 0%Q 0 (filledDayMap tz now sessions).

(** ** The view *)

Inductive Tab := T1D | T7D | T30D | T1Y | MAX.

Definition tabLabel (tab : Tab) : string :=
  match tab with
  | T1D => "1D" | T7D => "7D" | T30D => "30D" | T1Y => "1Y" | MAX => "MAX"
  end.

Definition TABS : list Tab := [T1D; T7D; T30D; T1Y; MAX].

Definition daysToSubtract (activeTab : Tab) : Z :=
  match activeTab with
  | T1D => 1 | T7D => 7 | T30D => 30 | T1Y => 365 | MAX => 0
  end.

(** The cutoff is [cutoff.setDate(now.getDate() - daysToSubtract)], where
    [cutoff] and [now] are two readings of the clock, one after the other;
    they are taken to be the same instant. *)
Definition filteredData (now : Z) (activeTab : Tab)
    (chartData : list DayEntry) : list DayEntry :=
  if (length chartData =? 0)%nat then []
  else
    match activeTab with
    | MAX => chartData
    | _ =>
        let cutoff := JSDate.addDays now (- daysToSubtract activeTab) in
        let cutoffStr := JSDate.isoDay cutoff in
        List.filter (fun d => cutoffStr <=? date d) chartData
    end.

Definition startPrice (filteredData : list DayEntry) : Q :=
  match filteredData with
  | [] => 0%Q
  | d :: _ => average d
  end.

Definition currentPrice (filteredData : list DayEntry) : Q :=
  match last filteredData with
  | Some d => average d
  | None => 0%Q
  end.

Definition isProfit (filteredData : list DayEntry) : bool :=
  Qle_bool (startPrice filteredData) (currentPrice filteredData).

Definition green : string := "#22c55e".
Definition red : string := "#ef4444".

Definition color (filteredData : list DayEntry) : string :=
  if isProfit filteredData then green else red.

(** [x.toFixed(0)] for [x] not negative: the nearest integer, the larger one
    on a tie. *)
Definition toFixed0 (x : Q) : string := numeral (Qfloor (x + (1 # 2))%Q).

(** What the header shows: the value and the day of the hovered point, or
    the current ones, and the class of the figure. *)
Definition displayPrice (hoverData : option DayEntry)
    (filteredData : list DayEntry) : Q :=
  match hoverData with
  | Some d => average d
  | None => currentPrice filteredData
  end.

Definition displayDate (hoverData : option DayEntry) : string :=
  match hoverData with
  | Some d => formattedDate d
  | None => "Today"
  end.

Definition priceClass (hoverData : option DayEntry)
    (filteredData : list DayEntry) : string :=
  match hoverData with
  | Some _ => "text-white"
  | None =>
      if isProfit filteredData then "text-green-500" else "text-red-500"
  end.

(** The delta pill, rendered while no point is hovered: its colour class, its
    arrow and its text. *)
Inductive Arrow := ArrowUpRight | ArrowDownRight.

Record DeltaPill := mkDeltaPill {
  pillClass : string;
  pillArrow : Arrow;
  pillText : string
}.

Definition deltaPill (hoverData : option DayEntry) (activeTab : Tab)
    (filteredData : list DayEntry) : option DeltaPill :=
  match hoverData with
  | Some _ => None
  | None =>
      let profit := isProfit filteredData in
      Some
        {| pillClass := if profit then "text-green-400" else "text-red-400";
           pillArrow := if profit then ArrowUpRight else ArrowDownRight;
           pillText :=
             (toFixed0
                (Qabs (currentPrice filteredData - startPrice filteredData))
              ++ "s " ++ tabLabel activeTab)%string |}
  end.

(** ** The component state and the sync handler *)

Inductive GoogleUser := CurrentUser.

Record AppState := mkAppState {
  activeTab : Tab;
  sessions : list Session;
  isSyncing : bool;
  gapiLoaded : bool;
  user : option GoogleUser;
  hoverData : option DayEntry
}.

Definition setSessions (f : list Session -> list Session) (s : AppState)
  : AppState :=
  {| activeTab := activeTab s; sessions := f (sessions s);
     isSyncing := isSyncing s; gapiLoaded := gapiLoaded s; user := user s;
     hoverData := hoverData s |}.

Definition setIsSyncing (b : bool) (s : AppState) : AppState :=
  {| activeTab := activeTab s; sessions := sessions s;
     isSyncing := b; gapiLoaded := gapiLoaded s; user := user s;
     hoverData := hoverData s |}.

(** What the handler does to the outside: the notices it shows, what it logs
    and the sign-in it starts. *)
Inductive Effect :=
  | Alert (message : string)
  | ConsoleError (label error : string)
  | SignIn.

(** How a block ends. *)
Inductive Completion :=
  | Normal
  | Return
  | Throw (error : string).

Record Run := mkRun {
  state : AppState;
  effects : list Effect;
  completion : Completion
}.

Definition lowerChar (c : Ascii.ascii) : Ascii.ascii :=
  let n := Ascii.nat_of_ascii c in
  if ((65 <=? n) && (n <=? 90))%nat then Ascii.ascii_of_nat (n + 32) else c.

(** [s.toLowerCase()], on ASCII text. *)
Fixpoint toLowerCase (s : string) : string :=
  match s with
  | EmptyString => EmptyString
  | String c s' => String (lowerChar c) (toLowerCase s')
  end.

Definition quote : string := String (Ascii.ascii_of_nat 34) EmptyString.

Definition notFoundMessage : string :=
  ("Calendar " ++ quote ++ TARGET_CALENDAR_NAME ++ quote ++ " not found.")
  %string.

Definition isTargetCalendar (c : CalendarEntry) : bool :=
  String.eqb (toLowerCase (summary c)) (toLowerCase TARGET_CALENDAR_NAME).

(** The body of [try]. *)
Definition tryBlock (gapi : Gapi) (s : AppState) : Run :=
  match calendarList_list gapi with
  | Rejected error => mkRun s [] (Throw error)
  | Resolved items =>
      match List.find isTargetCalendar items with
      | None => mkRun (setIsSyncing false s) [Alert notFoundMessage] Return
      | Some targetCal =>
          match events_list gapi (cal_id targetCal) with
          | Rejected error => mkRun s [] (Throw error)
          | Resolved items =>
              mkRun (setSessions (mergeSessions (newSessions items)) s) []
                Normal
          end
      end
  end.

Definition failedMessage : string := "Failed to sync. Check console.".

(** [catch (error)]: runs when the body threw. *)
Definition catchBlock (r : Run) : Run :=
  match completion r with
  | Throw error =>
      mkRun (state r)
        (effects r ++ [ConsoleError "Sync Error" error; Alert failedMessage])
        Normal
  | _ => r
  end.

(** [finally]: runs however the body and the handler ended. *)
Definition finallyBlock (r : Run) : Run :=
  mkRun (setIsSyncing false (state r)) (effects r) (completion r).

Definition handleSync (gapi : Gapi) (s : AppState)
  : AppState * list Effect :=
  if negb (gapiLoaded s) then (s, [])
  else
    match user s with
    | None => (s, [SignIn])
    | Some _ =>
        let r := finallyBlock (catchBlock (tryBlock gapi (setIsSyncing true s)))
        in (state r, effects r)
    end.

(** ** The duration helper *)

(** [Math.round]: the nearest integer, the larger one on a tie. *)
Definition Math_round (x : Q) : Z := Qfloor (x + (1 # 2))%Q.

(** The integer part, towards zero. *)
Definition Qtrunc (x : Q) : Z :=
  if Qle_bool 0 x then Qfloor x else Qceiling x.

(** [x % n]: what is left of [x] once the multiples of [n] that fit in it,
    counted towards zero, are taken out; it has the sign of [x]. *)
Definition remainder (x : Q) (n : Z) : Q :=
  (x - inject_Z (n * Qtrunc (x / inject_Z n)))%Q.

(** The [h], [m] and [s] of [formatDuration]. *)
Definition durationParts (seconds : Q) : Z * Z * Z :=
  let h := Qfloor (seconds / 3600) in
  let m := Qfloor (remainder seconds 3600 / 60) in
  let s := Math_round (remainder seconds 60) in
  (h, m, s).

Definition formatDuration (seconds : Q) : string :=
  let '(h, m, s) := durationParts seconds in
  if h =? 0 then (numeral m ++ "m " ++ numeral s ++ "s")%string
  else (numeral h ++ "h " ++ numeral m ++ "m " ++ numeral s ++ "s")%string.

(** ** The sign-in state *)

Definition setGapiLoaded (b : bool) (s : AppState) : AppState :=
  {| activeTab := activeTab s; sessions := sessions s;
     isSyncing := isSyncing s; gapiLoaded := b; user := user s;
     hoverData := hoverData s |}.

Definition setUser (u : option GoogleUser) (s : AppState) : AppState :=
  {| activeTab := activeTab s; sessions := sessions s;
     isSyncing := isSyncing s; gapiLoaded := gapiLoaded s; user := u;
     hoverData := hoverData s |}.

Definition setHoverData (h : option DayEntry) (s : AppState) : AppState :=
  {| activeTab := activeTab s; sessions := sessions s;
     isSyncing := isSyncing s; gapiLoaded := gapiLoaded s; user := user s;
     hoverData := h |}.


(** The callback of [gapi.client.init(...).then]: the client is loaded and the
    user is the current one when [isSignedIn.get()] says so. *)
Definition onClientInit (isSignedIn : bool) (s : AppState) : AppState :=
  setUser (if isSignedIn then Some CurrentUser else None)
    (setGapiLoaded true s).

(** The listener given to [isSignedIn.listen]. *)
Definition onSignedInChange (isSignedIn : bool) (s : AppState) : AppState :=
  setUser (if isSignedIn then Some CurrentUser else None) s.

(** ** Pointer handlers of the chart *)

(** [onMouseMove]: the hovered point becomes that of the event's first
    active payload, when the event has one. *)
Definition onMouseMove (activePayload : option DayEntry) (s : AppState)
  : AppState :=
  match activePayload with
  | Some payload => setHoverData (Some payload) s
  | None => s
  end.

Definition onMouseLeave (s : AppState) : AppState := setHoverData None s.

(** ** The header *)

(** What the component derives from its state at a rendering: the series,
    the filtered series, and the header built on them. *)
Record Header := mkHeader {
  headerDate : string;
  headerClass : string;
  headerPrice : string;
  headerPill : option DeltaPill
}.

Definition header (tz now : Z) (s : AppState) : Header :=
  let chartData := chartData tz now (sessions s) in
  let filteredData := filteredData now (activeTab s) chartData in
  {| headerDate := displayDate (hoverData s);
     headerClass := priceClass (hoverData s) filteredData;
     headerPrice := formatDuration (displayPrice (hoverData s) filteredData);
     headerPill := deltaPill (hoverData s) (activeTab s) filteredData |}.

(** * The vocabulary of the properties *)

(** ** Collections and the merge *)

(** [a] starts no later than [b]. *)
Definition startLe (a b : Session) : Prop := start a <= start b.

(** Some record of the collection starts at exactly the time [n] does. *)
Definition matchesExisting (prev : list Session) (n : Session) : Prop :=
  Exists (fun p => start p = start n) prev.

#[global] Instance matchesExisting_dec prev n :
  Decision (matchesExisting prev n).
Proof. unfold matchesExisting. apply _. Defined.

(** The event has no start date-time or no end date-time. *)
Definition lacksTime (e : Event) : Prop :=
  dateTime (ev_start e) = None \/ dateTime (ev_end e) = None.

(** ** Outcomes of a sync *)

(** The handler gets past its two guards: the client library is loaded and a
    user is signed in. *)
Definition syncStarts (s : AppState) : Prop :=
  gapiLoaded s = true /\ is_Some (user s).

(** A request of the sync is rejected: the calendar list, or the events of
    the calendar that was found. *)
Definition fetchFails (gapi : Gapi) : Prop :=
  (∃ error, calendarList_list gapi = Rejected error)
  \/ (∃ items targetCal error,
        calendarList_list gapi = Resolved items
        /\ List.find isTargetCalendar items = Some targetCal
        /\ events_list gapi (cal_id targetCal) = Rejected error).

(** The calendar list arrives and no calendar in it has the target name, in
    whatever case it is written. *)
Definition calendarMissing (gapi : Gapi) : Prop :=
  ∃ items, calendarList_list gapi = Resolved items
    /\ ∀ c, c ∈ items ->
         toLowerCase (summary c) ≠ toLowerCase TARGET_CALENDAR_NAME.

(** Both requests resolve, and [items] are the events of the calendar. *)
Definition fetchSucceeds (gapi : Gapi) (items : list Event) : Prop :=
  ∃ calendars targetCal,
    calendarList_list gapi = Resolved calendars
    /\ List.find isTargetCalendar calendars = Some targetCal
    /\ events_list gapi (cal_id targetCal) = Resolved items.

(** ** Days and totals *)

(** The fixed windows of the range selector and their lengths in days. *)
Definition lookbackWindows : list (Tab * Z) :=
  [(T1D, 1); (T7D, 7); (T30D, 30); (T1Y, 365)].

(** [n] days in a row from [d], nothing played yet. *)
Definition zeroDays (d : Z) (n : nat) : DayMap.t :=
  map (fun k => (k, 0%Q)) (seqZ d (Z.of_nat n)).

Definition Qsum (l : list Q) : Q := foldr Qplus 0%Q l.

(** The sessions that start on day [d], UTC. *)
Definition sessionsOn (d : Z) (l : list Session) : list Session :=
  filter (fun s => JSDate.isoDay (start s) = d) l.

(** The seconds played in them. *)
Definition playOn (d : Z) (l : list Session) : Q :=
  Qsum (map duration (sessionsOn d l)).

(** The day the first entry stands for: the UTC day of the local midnight
    that opens the day of the earliest session. *)
Definition firstDay (tz t : Z) : Z := JSDate.isoDay (JSDate.setHours0 tz t).

(** Days from the local day of [t] to the local day of [now], both counted. *)
Definition daysThrough (tz t now : Z) : Z :=
  JSDate.localDay tz now - JSDate.localDay tz t + 1.

(** [e] is an earliest session of the collection. *)
Definition earliest (e : Session) (l : list Session) : Prop :=
  e ∈ l /\ ∀ s, s ∈ l -> start e <= start s.


(** ** Sample data *)

(** The scenario of the specification: a session of 600 seconds on 17
    December 2025 and one of no length the day after, seen at noon of that
    second day, in UTC. *)
Definition scenarioFirst : Session :=
  mkSession "2025-12-17T10:00:00Z" 1765965600000 600 csv.

Definition scenarioSessions : list Session :=
  [ scenarioFirst; mkSession "2025-12-18T09:00:00Z" 1766048400000 0 csv ].

Definition scenarioNow : Z := 1766059200000.

(** The entry of the second day of the scenario. *)
Definition scenarioSecondEntry : DayEntry :=
  {| date := 20440; average := 600 # 2; dailyPlay := 0;
     formattedDate := "Dec 18" |}.


(** A filtered series that goes from 300 down to 200. *)
Definition fallingFirst : DayEntry :=
  {| date := 20439; average := 300; dailyPlay := 300;
     formattedDate := "Dec 17" |}.

Definition fallingLast : DayEntry :=
  {| date := 20440; average := 200; dailyPlay := 100;
     formattedDate := "Dec 18" |}.

Definition fallingSeries : list DayEntry := [fallingFirst; fallingLast].

(** An event with a start and no end, and one with both, an hour long. *)
Definition openEvent : Event :=
  mkEvent "ev1" (mkEventTime (Some 1766048400000)) (mkEventTime None).

Definition hourEvent : Event :=
  mkEvent "ev2" (mkEventTime (Some 1766048400000))
    (mkEventTime (Some 1766052000000)).

(** An event of half an hour that starts when no session of the scenario
    does. *)
Definition lateEvent : Event :=
  mkEvent "ev3" (mkEventTime (Some 1766052000000))
    (mkEventTime (Some 1766053800000)).

(** A state past the guards of the handler, a service that answers no
    request, and one that lists two calendars and the three events. *)
Definition signedIn : AppState :=
  mkAppState T7D scenarioSessions false true (Some CurrentUser) None.

Definition trackerCalendar : CalendarEntry := mkCalendar "cal1" "atracker".

Definition offlineGapi : Gapi :=
  mkGapi (Rejected "network") (fun _ => Rejected "network").

Definition onlineGapi : Gapi :=
  mkGapi (Resolved [mkCalendar "cal0" "Work"; trackerCalendar])
    (fun _ => Resolved [openEvent; hourEvent; lateEvent]).

(** The entry of the first day of the scenario. *)
Definition scenarioFirstEntry : DayEntry :=
  {| date := 20439; average := 600; dailyPlay := 600;
     formattedDate := "Dec 17" |}.




(** The state before any session is loaded. *)
Definition emptyState : AppState :=
  mkAppState T7D [] false false None None.

(** Proves [earliest e l] for a list written out. *)
Ltac earliest_of_list :=
  split;
  [ repeat first [ by left | right ]
  | let s := fresh "s" in let Hs := fresh "Hs" in
    intros s Hs;
    repeat (apply elem_of_cons in Hs as [->|Hs]; [simpl; lia|]);
    by apply elem_of_nil in Hs ].

(** Two entries that show the same: same date and label, totals and averages
    of the same value. *)
Definition sameEntry (a b : DayEntry) : Prop :=
  date a = date b /\ formattedDate a = formattedDate b
  /\ (dailyPlay a == dailyPlay b)%Q /\ (average a == average b)%Q.

(** * Properties *)

(** ** Sorting by start time *)

Lemma insertByStart_Permutation s l : insertByStart s l ≡ₚ s :: l.
Proof.
  induction l as [|x l IH]; simpl; [done|].
  destruct (start s <=? start x); [done|].
  rewrite IH. apply Permutation_swap.
Qed.

Lemma sortByStart_Permutation l : sortByStart l ≡ₚ l.
Proof.
  induction l as [|s l IH]; simpl; [done|].
  by rewrite insertByStart_Permutation, IH.
Qed.

Lemma sortByStart_length l : length (sortByStart l) = length l.
Proof. apply Permutation_length, sortByStart_Permutation. Qed.

Lemma insertByStart_StronglySorted s l :
  StronglySorted startLe l -> StronglySorted startLe (insertByStart s l).
Proof.
  induction 1 as [|x l Hl IH Hx]; simpl.
  - repeat constructor.
  - destruct (Z.leb_spec (start s) (start x)) as [Hle|Hgt].
    + constructor; [by constructor|].
      constructor; [done|].
      eapply Forall_impl; [exact Hx|].
      unfold startLe; intros y Hy; lia.
    + constructor; [done|].
      rewrite insertByStart_Permutation.
      constructor; [unfold startLe; lia | done].
Qed.

Lemma sortByStart_StronglySorted l : StronglySorted startLe (sortByStart l).
Proof.
  induction l as [|s l IH]; simpl; [constructor|].
  by apply insertByStart_StronglySorted.
Qed.

(** The sort is stable: the sessions that start at one time keep the order
    they had. *)
Lemma insertByStart_stable t s l :
  filter (fun x => start x = t) (insertByStart s l)
  = filter (fun x => start x = t) (s :: l).
Proof.
  induction l as [|x l IH]; simpl; [done|].
  destruct (Z.leb_spec (start s) (start x)) as [Hle|Hgt]; [done|].
  destruct (decide (start x = t)) as [Hx|Hx].
  - rewrite (filter_cons_True _ x) by done. rewrite IH.
    rewrite !(filter_cons_False _ s) by lia.
    by rewrite filter_cons_True.
  - rewrite (filter_cons_False _ x) by done. rewrite IH.
    destruct (decide (start s = t)) as [Hs|Hs].
    + rewrite !(filter_cons_True _ s) by done.
      by rewrite filter_cons_False.
    + rewrite !(filter_cons_False _ s) by done.
      by rewrite filter_cons_False.
Qed.

Lemma sortByStart_stable t l :
  filter (fun x => start x = t) (sortByStart l)
  = filter (fun x => start x = t) l.
Proof.
  induction l as [|s l IH]; simpl; [done|].
  rewrite insertByStart_stable.
  destruct (decide (start s = t)) as [Hs|Hs].
  - rewrite !(filter_cons_True _ s) by done. by rewrite IH.
  - rewrite !(filter_cons_False _ s) by done. by rewrite IH.
Qed.

(** The head of the sorted collection is an earliest session. *)
Lemma sortByStart_head l first rest :
  sortByStart l = first :: rest ->
  first ∈ l /\ ∀ s, s ∈ l -> start first <= start s.
Proof.
  intros Hs. split.
  - rewrite <- (sortByStart_Permutation l), Hs. by left.
  - intros s Hin. rewrite <- (sortByStart_Permutation l), Hs in Hin.
    pose proof (sortByStart_StronglySorted l) as Hsorted.
    rewrite Hs in Hsorted. inversion Hsorted as [|? ? _ Hall]; subst.
    apply elem_of_cons in Hin as [->|Hin]; [lia|].
    rewrite Forall_forall in Hall. by apply Hall.
Qed.

Lemma sortByStart_nonempty l : l ≠ [] -> ∃ first rest, sortByStart l = first :: rest.
Proof.
  intros Hne. destruct (sortByStart l) as [|first rest] eqn:Hs; [|eauto].
  apply (f_equal length) in Hs. rewrite sortByStart_length in Hs.
  by destruct l.
Qed.

(** ** The merge *)

Lemma matchesExisting_elem_of prev n :
  matchesExisting prev n <-> start n ∈ map start prev.
Proof.
  unfold matchesExisting. rewrite Exists_exists, list_elem_of_fmap. split.
  - intros (p & Hp & Heq). eauto.
  - intros (p & Heq & Hp). eauto.
Qed.

Lemma mergeSessions_Permutation fetched prev :
  mergeSessions fetched prev
  ≡ₚ prev ++ filter (fun n => ¬ matchesExisting prev n) fetched.
Proof.
  unfold mergeSessions. rewrite sortByStart_Permutation.
  apply Permutation_app_head.
  rewrite (list_filter_iff _ (fun n => ¬ matchesExisting prev n)); [done|].
  intros n. by rewrite matchesExisting_elem_of, elem_of_list_to_set.
Qed.

Lemma mergeSessions_app_matching l1 n l2 prev :
  matchesExisting prev n ->
  mergeSessions (l1 ++ n :: l2) prev = mergeSessions (l1 ++ l2) prev.
Proof.
  intros Hm. unfold mergeSessions.
  rewrite !filter_app, filter_cons_False; [done|].
  rewrite elem_of_list_to_set, <- matchesExisting_elem_of. tauto.
Qed.

Lemma mergeSessions_app_fresh l1 n l2 prev :
  ¬ matchesExisting prev n ->
  mergeSessions (l1 ++ n :: l2) prev ≡ₚ n :: mergeSessions (l1 ++ l2) prev.
Proof.
  intros Hm. rewrite !mergeSessions_Permutation.
  rewrite !filter_app, filter_cons_True by done.
  by rewrite <- !Permutation_middle.
Qed.

(** C3. Whatever else is fetched with it (the records [before] and [after] it
    in the batch), a fetched record [n] is left out of the merged collection
    when its start time is exactly that of an existing record, and is added
    to it otherwise; merging one record alone leaves the size of the
    collection unchanged in the first case and grows it by one in the
    second. *)
Theorem merge_drops_exactly_the_start_matches
    (prev before after : list Session) (n : Session) :
  (mergeSessions (before ++ n :: after) prev
   ≡ₚ if decide (matchesExisting prev n)
      then mergeSessions (before ++ after) prev
      else n :: mergeSessions (before ++ after) prev)
  /\ (mergeSessions [n] prev
      ≡ₚ if decide (matchesExisting prev n) then prev else prev ++ [n])
  /\ length (mergeSessions [n] prev)
     = if decide (matchesExisting prev n)
       then length prev else S (length prev).
Proof.
  split; [|split].
  - destruct (decide (matchesExisting prev n)) as [Hm|Hm].
    + by rewrite mergeSessions_app_matching.
    + by apply mergeSessions_app_fresh.
  - rewrite mergeSessions_Permutation.
    destruct (decide (matchesExisting prev n)) as [Hm|Hm].
    + rewrite filter_cons_False by tauto. by rewrite filter_nil, app_nil_r.
    + by rewrite filter_cons_True.
  - rewrite mergeSessions_Permutation.
    destruct (decide (matchesExisting prev n)) as [Hm|Hm].
    + rewrite filter_cons_False by tauto.
      by rewrite filter_nil, app_nil_r.
    + rewrite filter_cons_True by done.
      rewrite length_app. simpl. lia.
Qed.

(** ** Events without a start or an end time *)

Lemma eventToSession_lacksTime e : lacksTime e -> eventToSession e = None.
Proof.
  unfold lacksTime, eventToSession. intros [-> | ->]; [done|].
  by destruct (dateTime (ev_start e)).
Qed.

Lemma newSessions_app l1 l2 :
  newSessions (l1 ++ l2) = newSessions l1 ++ newSessions l2.
Proof. unfold newSessions, filterBoolean. by rewrite map_app, omap_app. Qed.

Lemma newSessions_cons e l :
  newSessions (e :: l)
  = match eventToSession e with
    | Some s => s :: newSessions l
    | None => newSessions l
    end.
Proof. unfold newSessions, filterBoolean. simpl. by destruct (eventToSession e). Qed.

Lemma newSessions_lacksTime l1 e l2 :
  lacksTime e -> newSessions (l1 ++ e :: l2) = newSessions (l1 ++ l2).
Proof.
  intros He. rewrite !newSessions_app, newSessions_cons.
  by rewrite eventToSession_lacksTime.
Qed.

(** ** The sync handler *)

Lemma find_isTargetCalendar_None items :
  (∀ c, c ∈ items ->
        toLowerCase (summary c) ≠ toLowerCase TARGET_CALENDAR_NAME) ->
  List.find isTargetCalendar items = None.
Proof.
  induction items as [|c items IH]; intros Hall; simpl; [done|].
  unfold isTargetCalendar at 1.
  destruct (String.eqb_spec (toLowerCase (summary c))
              (toLowerCase TARGET_CALENDAR_NAME)) as [Heq|_].
  - exfalso. apply (Hall c); [by left | done].
  - apply IH. intros c' Hc'. apply Hall. by right.
Qed.

(** The outcomes of a sync are these three, and no other. *)
Lemma sync_outcomes gapi :
  fetchFails gapi \/ calendarMissing gapi \/ ∃ items, fetchSucceeds gapi items.
Proof.
  unfold fetchFails, calendarMissing, fetchSucceeds.
  destruct (calendarList_list gapi) as [calendars|error] eqn:Hc; [|eauto].
  destruct (List.find isTargetCalendar calendars) as [targetCal|] eqn:Hf.
  - destruct (events_list gapi (cal_id targetCal)) as [items|error] eqn:He.
    + right; right. eauto 10.
    + left; right. eauto 10.
  - right; left. exists calendars. split; [done|].
    intros c Hc' Heq. apply list_elem_of_In in Hc'.
    eapply find_none in Hc'; [|exact Hf].
    unfold isTargetCalendar in Hc'. apply String.eqb_neq in Hc'. done.
Qed.

Lemma handleSync_not_started gapi s :
  ¬ syncStarts s ->
  fst (handleSync gapi s) = s
  /\ ∀ message, Alert message ∉ snd (handleSync gapi s).
Proof.
  unfold syncStarts, handleSync. intros Hns.
  destruct (gapiLoaded s); simpl.
  - destruct (user s) as [u|]; simpl.
    + exfalso. apply Hns. eauto.
    + split; [done|]. intros message Hin.
      apply list_elem_of_singleton in Hin. discriminate.
  - split; [done|]. intros message Hin. by apply elem_of_nil in Hin.
Qed.

Lemma handleSync_fetchFails gapi s :
  syncStarts s -> fetchFails gapi ->
  ∃ error,
    handleSync gapi s
    = (setIsSyncing false (setIsSyncing true s),
       [ConsoleError "Sync Error" error; Alert failedMessage]).
Proof.
  unfold syncStarts, handleSync. intros [-> [u ->]] Hfail. simpl.
  unfold tryBlock.
  destruct Hfail as [[error ->] | (items & targetCal & error & -> & -> & ->)];
    by exists error.
Qed.

Lemma handleSync_calendarMissing gapi s :
  syncStarts s -> calendarMissing gapi ->
  handleSync gapi s
  = (setIsSyncing false (setIsSyncing false (setIsSyncing true s)),
     [Alert notFoundMessage]).
Proof.
  unfold syncStarts, handleSync. intros [-> [u ->]] (items & Hc & Hall). simpl.
  unfold tryBlock. rewrite Hc.
  by rewrite find_isTargetCalendar_None.
Qed.

Lemma handleSync_fetchSucceeds gapi s items :
  syncStarts s -> fetchSucceeds gapi items ->
  handleSync gapi s
  = (setIsSyncing false
       (setSessions (mergeSessions (newSessions items)) (setIsSyncing true s)),
     []).
Proof.
  unfold syncStarts, handleSync.
  intros [-> [u ->]] (calendars & targetCal & Hc & Hf & He). simpl.
  unfold tryBlock. by rewrite Hc, Hf, He.
Qed.

(** C6. An event that lacks its start or its end date-time yields no session:
    the sessions built from a fetched list are the same with the event or
    without it, so is the merged collection and so is all that the handler
    does; fetched alone, the event leaves the length of the collection as it
    was. *)
Theorem event_without_times_is_excluded
    (before after : list Event) (e : Event) (prev : list Session)
    (calendars : list CalendarEntry) (s : AppState) :
  lacksTime e ->
  newSessions (before ++ e :: after) = newSessions (before ++ after)
  /\ mergeSessions (newSessions (before ++ e :: after)) prev
     = mergeSessions (newSessions (before ++ after)) prev
  /\ length (mergeSessions (newSessions [e]) prev) = length prev
  /\ handleSync
       (mkGapi (Resolved calendars) (fun _ => Resolved (before ++ e :: after)))
       s
     = handleSync
         (mkGapi (Resolved calendars) (fun _ => Resolved (before ++ after))) s.
Proof.
  intros He. pose proof (newSessions_lacksTime before e after He) as Hn.
  repeat split.
  - done.
  - by rewrite Hn.
  - change [e] with ([] ++ e :: []).
    rewrite (newSessions_lacksTime [] e [] He).
    change (newSessions ([] ++ [])) with (@nil Session).
    rewrite mergeSessions_Permutation. by rewrite filter_nil, app_nil_r.
  - unfold handleSync, tryBlock. simpl. by rewrite Hn.
Qed.

(** C10. An event with both date-times yields a session that starts at the
    start time of the event and whose duration is the time from its start to
    its end in seconds: a thousandth of the difference of the two time
    values, which are in milliseconds. *)
Theorem event_duration_in_seconds (e : Event) (t0 t1 : Z) :
  dateTime (ev_start e) = Some t0 ->
  dateTime (ev_end e) = Some t1 ->
  ∃ r, eventToSession e = Some r
    /\ newSessions [e] = [r]
    /\ start r = t0
    /\ (duration r == (t1 - t0) # 1000)%Q
    /\ (duration r * 1000 == inject_Z (t1 - t0))%Q.
Proof.
  intros H0 H1. unfold newSessions, filterBoolean, eventToSession. simpl.
  unfold eventToSession. rewrite H0, H1. simpl.
  eexists. repeat split; simpl.
  - unfold Qdiv, Qeq. simpl. lia.
  - field.
Qed.

(** C7. Once past its guards, the handler ends with the busy flag cleared
    however the requests went.  When a request is rejected or no calendar has
    the target name, the state it leaves is the one it found with the flag
    cleared, the session collection among the rest, and a notice has been
    shown: the failure notice after a rejection, and the not-found notice,
    alone, when the calendar is missing. *)
Theorem failed_sync_changes_nothing (gapi : Gapi) (s : AppState) :
  syncStarts s ->
  isSyncing (fst (handleSync gapi s)) = false
  /\ (fetchFails gapi \/ calendarMissing gapi ->
      fst (handleSync gapi s) = setIsSyncing false s
      /\ sessions (fst (handleSync gapi s)) = sessions s
      /\ ∃ message, Alert message ∈ snd (handleSync gapi s))
  /\ (fetchFails gapi -> Alert failedMessage ∈ snd (handleSync gapi s))
  /\ (calendarMissing gapi -> snd (handleSync gapi s) = [Alert notFoundMessage]).
Proof.
  intros Hs. split; [|split; [|split]].
  - destruct (sync_outcomes gapi) as [Hf | [Hm | [items Hok]]].
    + by destruct (handleSync_fetchFails gapi s Hs Hf) as [error ->].
    + by rewrite (handleSync_calendarMissing gapi s Hs Hm).
    + by rewrite (handleSync_fetchSucceeds gapi s items Hs Hok).
  - intros [Hf | Hm].
    + destruct (handleSync_fetchFails gapi s Hs Hf) as [error ->]. simpl.
      repeat split. exists failedMessage. set_solver.
    + rewrite (handleSync_calendarMissing gapi s Hs Hm). simpl.
      repeat split. exists notFoundMessage. set_solver.
  - intros Hf.
    destruct (handleSync_fetchFails gapi s Hs Hf) as [error ->]. simpl.
    set_solver.
  - intros Hm. by rewrite (handleSync_calendarMissing gapi s Hs Hm).
Qed.


(** ** The range filter *)

Lemma isoDay_addDays t k : JSDate.isoDay (JSDate.addDays t k) = JSDate.isoDay t + k.
Proof. unfold JSDate.isoDay, JSDate.addDays. by rewrite Z.div_add. Qed.

Lemma List_filter_filter {A} (f : A -> bool) (P : A -> Prop)
    `{!∀ x, Decision (P x)} (l : list A) :
  (∀ x, f x = true <-> P x) -> List.filter f l = filter P l.
Proof.
  intros Hf. induction l as [|x l IH]; simpl; [done|].
  destruct (f x) eqn:Hx.
  - rewrite filter_cons_True by by apply Hf. by rewrite IH.
  - rewrite filter_cons_False; [done|].
    rewrite <- Hf, Hx. discriminate.
Qed.


(** C9. With no session there is no day series, and so nothing passes the
    range filter, whichever range is selected. *)
Theorem empty_collection_empty_series (tz now : Z) (tab : Tab) :
  chartData tz now [] = []
  /\ filteredData now tab (chartData tz now []) = []
  /\ filteredData now tab [] = [].
Proof. by destruct tab. Qed.

(** ** The trend indicator *)

Lemma toFixed0_Qeq x y : (x == y)%Q -> toFixed0 x = toFixed0 y.
Proof. intros Heq. unfold toFixed0. by rewrite Heq. Qed.

Lemma startPrice_head fd first : head fd = Some first -> startPrice fd = average first.
Proof. destruct fd; simpl; congruence. Qed.

Lemma currentPrice_last fd last_ : last fd = Some last_ -> currentPrice fd = average last_.
Proof. unfold currentPrice. by intros ->. Qed.

(** The text of the pill for a difference of [x] seconds under [tab]. *)
Lemma pillText_of tab fd first last_ :
  head fd = Some first -> last fd = Some last_ ->
  (toFixed0 (Qabs (currentPrice fd - startPrice fd)) ++ "s " ++ tabLabel tab)
  %string
  = (toFixed0 (Qabs (average last_ - average first)) ++ "s " ++ tabLabel tab)
    %string.
Proof.
  intros Hhead Hlast.
  by rewrite (startPrice_head _ _ Hhead), (currentPrice_last _ _ Hlast).
Qed.

(** C5. On a filtered series that is not empty the indicator sets the average
    of the last entry against that of the first.  When the last is the
    greater or they are equal the styling is the positive one: green line,
    green figure, green pill with the arrow up.  When the last is the smaller
    it is the negative one: red line, red figure, red pill with the arrow
    down.  Either way the pill shows the size of the difference in whole
    seconds, then the range; from 300 down to 200 the styling is negative and
    the size shown is 100. *)
Theorem trend_indicator (tab : Tab) (fd : list DayEntry)
    (first last_ : DayEntry) :
  head fd = Some first ->
  last fd = Some last_ ->
  ((average first <= average last_)%Q ->
     isProfit fd = true /\ color fd = green
     /\ priceClass None fd = "text-green-500"%string
     /\ deltaPill None tab fd
        = Some (mkDeltaPill "text-green-400" ArrowUpRight
                  (toFixed0 (Qabs (average last_ - average first)) ++ "s "
                   ++ tabLabel tab)%string))
  /\ ((average last_ < average first)%Q ->
     isProfit fd = false /\ color fd = red
     /\ priceClass None fd = "text-red-500"%string
     /\ deltaPill None tab fd
        = Some (mkDeltaPill "text-red-400" ArrowDownRight
                  (toFixed0 (Qabs (average last_ - average first)) ++ "s "
                   ++ tabLabel tab)%string))
  /\ ((average first == 300)%Q -> (average last_ == 200)%Q ->
     isProfit fd = false /\ color fd = red
     /\ priceClass None fd = "text-red-500"%string
     /\ deltaPill None tab fd
        = Some (mkDeltaPill "text-red-400" ArrowDownRight
                  ("100s " ++ tabLabel tab)%string)).
Proof.
  intros Hhead Hlast.
  pose proof (pillText_of tab fd first last_ Hhead Hlast) as Htext.
  assert ((average last_ < average first)%Q ->
     isProfit fd = false /\ color fd = red
     /\ priceClass None fd = "text-red-500"%string
     /\ deltaPill None tab fd
        = Some (mkDeltaPill "text-red-400" ArrowDownRight
                  (toFixed0 (Qabs (average last_ - average first)) ++ "s "
                   ++ tabLabel tab)%string)) as Hneg.
  { intros Hlt.
    assert (isProfit fd = false) as Hp.
    { unfold isProfit.
      rewrite (startPrice_head _ _ Hhead), (currentPrice_last _ _ Hlast).
      destruct (Qle_bool (average first) (average last_)) eqn:Hb; [|done].
      apply Qle_bool_iff in Hb. by apply Qlt_not_le in Hlt. }
    unfold color, priceClass, deltaPill. by rewrite Hp, Htext. }
  split; [|split; [done|]].
  - intros Hle.
    assert (isProfit fd = true) as Hp.
    { unfold isProfit.
      rewrite (startPrice_head _ _ Hhead), (currentPrice_last _ _ Hlast).
      by apply Qle_bool_iff. }
    unfold color, priceClass, deltaPill. by rewrite Hp, Htext.
  - intros H300 H200.
    destruct Hneg as (Hp & Hc & Hk & Hpill); [by rewrite H300, H200|].
    repeat split; try done.
    rewrite Hpill. do 2 f_equal.
    rewrite (toFixed0_Qeq _ 100); [done|]. by rewrite H300, H200.
Qed.

(** ** The map of days *)

Lemma DayMap_get_Some k v (m : DayMap.t) :
  NoDup (map fst m) -> (k, v) ∈ m -> DayMap.get k m = Some v.
Proof.
  induction m as [|[k' v'] m IH]; simpl; intros Hnd Hin.
  - by apply elem_of_nil in Hin.
  - apply NoDup_cons in Hnd as [Hk' Hnd].
    apply elem_of_cons in Hin as [[= -> ->]|Hin].
    + by rewrite Z.eqb_refl.
    + destruct (Z.eqb_spec k k') as [->|_]; [|by apply IH].
      exfalso. apply Hk'. apply list_elem_of_fmap. by exists (k', v).
Qed.

Lemma DayMap_get_elem_of k v (m : DayMap.t) : DayMap.get k m = Some v -> (k, v) ∈ m.
Proof.
  induction m as [|[k' v'] m IH]; simpl; [done|].
  destruct (Z.eqb_spec k k') as [->|_].
  - intros [= ->]. by left.
  - intros Hg. right. by apply IH.
Qed.

Lemma DayMap_set_fresh k v (m : DayMap.t) :
  k ∉ map fst m -> DayMap.set k v m = m ++ [(k, v)].
Proof.
  induction m as [|[k' v'] m IH]; simpl; [done|].
  intros Hk. apply not_elem_of_cons in Hk as [Hne Hk].
  destruct (Z.eqb_spec k k'); [done|]. by rewrite IH.
Qed.

Lemma DayMap_set_keys k v (m : DayMap.t) :
  k ∈ map fst m -> map fst (DayMap.set k v m) = map fst m.
Proof.
  induction m as [|[k' v'] m IH]; simpl; intros Hk.
  - by apply elem_of_nil in Hk.
  - destruct (Z.eqb_spec k k') as [->|Hne]; [done|]. simpl.
    apply elem_of_cons in Hk as [?|Hk]; [done|]. by rewrite IH.
Qed.

Lemma DayMap_get_set k k' v (m : DayMap.t) :
  DayMap.get k' (DayMap.set k v m)
  = if k' =? k then Some v else DayMap.get k' m.
Proof.
  induction m as [|[k0 v0] m IH]; simpl.
  - by destruct (k' =? k).
  - destruct (Z.eqb_spec k k0) as [->|Hne]; simpl.
    + by destruct (Z.eqb_spec k' k0).
    + destruct (Z.eqb_spec k' k0) as [->|Hne'].
      * by destruct (Z.eqb_spec k0 k) as [->|_].
      * apply IH.
Qed.

Lemma DayMap_has_true k (m : DayMap.t) : DayMap.has k m = true <-> k ∈ map fst m.
Proof.
  unfold DayMap.has. split.
  - destruct (DayMap.get k m) as [v|] eqn:Hg; [|done]. intros _.
    apply DayMap_get_elem_of in Hg. apply list_elem_of_fmap. by exists (k, v).
  - intros Hk. destruct (DayMap.get k m) eqn:Hg; [done|].
    destruct (decide (k ∈ map fst m)) as [_|Hn]; [|done].
    apply list_elem_of_fmap in Hk as ([k0 v] & -> & Hin). simpl in Hg.
    clear -Hg Hin. exfalso. induction m as [|[k' v'] m IH]; simpl in *.
    + by apply elem_of_nil in Hin.
    + destruct (Z.eqb_spec k0 k') as [->|Hne]; [done|].
      apply elem_of_cons in Hin as [[= -> ->]|Hin]; [done | by apply IH].
Qed.

(** ** Filling the days *)

Lemma daysToFill_exit curr today : today < curr -> daysToFill curr today = O.
Proof.
  intros Hlt. unfold daysToFill, JSDate.msPerDay.
  assert ((today - curr) / 86400000 < 0) by (apply Z.div_lt_upper_bound; lia).
  lia.
Qed.

Lemma daysToFill_iter curr today :
  curr <= today ->
  daysToFill curr today = S (daysToFill (JSDate.addDays curr 1) today).
Proof.
  intros Hle. unfold daysToFill, JSDate.addDays, JSDate.msPerDay.
  replace (today - (curr + 1 * 86400000))
    with ((today - curr) + (-1) * 86400000) by lia.
  rewrite Z.div_add by lia.
  assert (0 <= (today - curr) / 86400000) by (apply Z.div_pos; lia).
  lia.
Qed.

(** The loop ends, and the unrolling gives what it ends with. *)
Lemma fillDays_run curr today dayMap :
  fillDaysRun today curr dayMap
    (fillDays (daysToFill curr today) curr today dayMap).
Proof.
  remember (daysToFill curr today) as n eqn:Hn.
  revert curr dayMap Hn. induction n as [|n IH]; intros curr dayMap Hn.
  - simpl. apply fillDays_exit.
    destruct (Z.lt_ge_cases today curr) as [|Hle]; [done|].
    rewrite daysToFill_iter in Hn by done. discriminate.
  - destruct (Z.lt_ge_cases today curr) as [Hlt|Hle].
    + rewrite daysToFill_exit in Hn by done. discriminate.
    + simpl. destruct (Z.leb_spec curr today); [|lia].
      apply fillDays_iter; [done|]. apply IH.
      rewrite daysToFill_iter in Hn by done. by injection Hn.
Qed.

Lemma fillDaysRun_deterministic today curr dayMap m1 m2 :
  fillDaysRun today curr dayMap m1 -> fillDaysRun today curr dayMap m2 ->
  m1 = m2.
Proof.
  intros H1. revert m2.
  induction H1 as [curr dayMap Hlt | curr dayMap m1 Hle _ IH]; intros m2 H2.
  - inversion H2; subst; [done | lia].
  - inversion H2; subst; [lia | by apply IH].
Qed.

Lemma fillDays_zeroDays curr today (dayMap : DayMap.t) :
  (∀ k, k ∈ map fst dayMap -> k < JSDate.isoDay curr) ->
  fillDays (daysToFill curr today) curr today dayMap
  = dayMap ++ zeroDays (JSDate.isoDay curr) (daysToFill curr today).
Proof.
  remember (daysToFill curr today) as n eqn:Hn.
  revert curr dayMap Hn. induction n as [|n IH]; intros curr dayMap Hn Hkeys.
  - simpl. unfold zeroDays. simpl. by rewrite app_nil_r.
  - destruct (Z.lt_ge_cases today curr) as [Hlt|Hle].
    { rewrite daysToFill_exit in Hn by done. discriminate. }
    rewrite daysToFill_iter in Hn by done. injection Hn as Hn.
    simpl. destruct (Z.leb_spec curr today); [|lia].
    rewrite DayMap_set_fresh.
    2:{ intros Hin. apply Hkeys in Hin. lia. }
    rewrite IH; [|done|].
    + rewrite <- app_assoc. f_equal. unfold zeroDays.
      rewrite isoDay_addDays.
      replace (Z.of_nat (S n)) with (Z.succ (Z.of_nat n)) by lia.
      rewrite (seqZ_cons (JSDate.isoDay curr)) by lia. simpl.
      by replace (Z.pred (Z.succ (Z.of_nat n))) with (Z.of_nat n) by lia.
    + intros k. rewrite isoDay_addDays, map_app. simpl.
      rewrite elem_of_app, list_elem_of_singleton.
      intros [Hin| ->]; [apply Hkeys in Hin|]; lia.
Qed.

(** ** Adding the play time *)

Lemma Qsum_Permutation l1 l2 : l1 ≡ₚ l2 -> (Qsum l1 == Qsum l2)%Q.
Proof.
  induction 1 as [|x l1 l2 _ IH|x y l|l1 l2 l3 _ IH1 _ IH2]; simpl.
  - reflexivity.
  - by rewrite IH.
  - ring.
  - by rewrite IH1.
Qed.

Lemma playOn_Permutation d l1 l2 : l1 ≡ₚ l2 -> (playOn d l1 == playOn d l2)%Q.
Proof.
  intros Hp. unfold playOn, sessionsOn.
  apply Qsum_Permutation. by rewrite Hp.
Qed.

Lemma addPlay_keys dayMap s : map fst (addPlay dayMap s) = map fst dayMap.
Proof.
  unfold addPlay.
  destruct (DayMap.has _ dayMap) eqn:Hhas; [|done].
  apply DayMap_set_keys. by apply DayMap_has_true.
Qed.

Lemma fold_addPlay_keys l dayMap :
  map fst (fold_left addPlay l dayMap) = map fst dayMap.
Proof.
  revert dayMap. induction l as [|s l IH]; intros dayMap; simpl; [done|].
  by rewrite IH, addPlay_keys.
Qed.

Lemma addPlay_get k dayMap s :
  DayMap.get k (addPlay dayMap s)
  = match DayMap.get k dayMap with
    | Some v =>
        Some (if k =? JSDate.isoDay (start s) then (v + duration s)%Q else v)
    | None => None
    end.
Proof.
  unfold addPlay, DayMap.has.
  destruct (DayMap.get (JSDate.isoDay (start s)) dayMap) as [v0|] eqn:Hday.
  - rewrite DayMap_get_set.
    destruct (Z.eqb_spec k (JSDate.isoDay (start s))) as [->|_].
    + by rewrite Hday.
    + by destruct (DayMap.get k dayMap).
  - destruct (Z.eqb_spec k (JSDate.isoDay (start s))) as [->|_].
    + by rewrite Hday.
    + by destruct (DayMap.get k dayMap).
Qed.

Lemma fold_addPlay_get k l dayMap v :
  DayMap.get k dayMap = Some v ->
  ∃ v', DayMap.get k (fold_left addPlay l dayMap) = Some v'
        /\ (v' == v + playOn k l)%Q.
Proof.
  revert dayMap v. induction l as [|s l IH]; intros dayMap v Hget; simpl.
  - exists v. split; [done|]. unfold playOn, sessionsOn. simpl. ring.
  - pose proof (addPlay_get k dayMap s) as Hadd. rewrite Hget in Hadd.
    destruct (IH _ _ Hadd) as (v' & Hget' & Heq).
    exists v'. split; [done|]. rewrite Heq.
    unfold playOn, sessionsOn.
    destruct (Z.eqb_spec k (JSDate.isoDay (start s))) as [->|Hne].
    + rewrite filter_cons_True by done. simpl. ring.
    + rewrite filter_cons_False by done. reflexivity.
Qed.

(** ** The data points *)

Lemma dataPoints_date tz c n (m : DayMap.t) :
  map date (dataPoints tz c n m) = map fst m.
Proof.
  revert c n. induction m as [|[d v] m IH]; intros c n; simpl; [done|].
  by rewrite IH.
Qed.

Lemma dataPoints_dailyPlay tz c n (m : DayMap.t) :
  map dailyPlay (dataPoints tz c n m) = map snd m.
Proof.
  revert c n. induction m as [|[d v] m IH]; intros c n; simpl; [done|].
  by rewrite IH.
Qed.

(** The running average: with [c] seconds over [n] days counted before the
    entries, entry [k] averages [c] and the first [k + 1] totals over
    [n + k + 1] days. *)
Lemma dataPoints_average tz c n (m : DayMap.t) (k : nat) e :
  dataPoints tz c n m !! k = Some e ->
  (average e
   == (c + Qsum (take (S k) (map snd m))) / inject_Z (n + Z.of_nat k + 1))%Q.
Proof.
  revert c n k. induction m as [|[d v] m IH]; intros c n k Hk; [done|].
  destruct k as [|k]; simpl in Hk.
  - injection Hk as <-. simpl. rewrite Z.add_0_r.
    destruct (map snd m); simpl; by rewrite Qplus_0_r.
  - apply IH in Hk. rewrite Hk.
    replace (n + 1 + Z.of_nat k + 1) with (n + Z.of_nat (S k) + 1) by lia.
    change (take (S (S k)) (map snd ((d, v) :: m)))
      with (v :: take (S k) (map snd m)).
    simpl Qsum. by rewrite Qplus_assoc.
Qed.

(** ** The day series of a collection *)

Lemma daysToFill_setHours0 tz t now :
  daysToFill (JSDate.setHours0 tz t) (JSDate.setHours0 tz now)
  = Z.to_nat (daysThrough tz t now).
Proof.
  unfold daysToFill, daysThrough, JSDate.setHours0. f_equal. f_equal.
  replace (JSDate.localDay tz now * JSDate.msPerDay - tz
           - (JSDate.localDay tz t * JSDate.msPerDay - tz))
    with ((JSDate.localDay tz now - JSDate.localDay tz t) * JSDate.msPerDay)
    by lia.
  by rewrite Z.div_mul.
Qed.

Lemma filledDayMap_sorted tz now l first rest :
  sortByStart l = first :: rest ->
  filledDayMap tz now l
  = fold_left addPlay (first :: rest)
      (zeroDays (firstDay tz (start first))
         (Z.to_nat (daysThrough tz (start first) now))).
Proof.
  intros Hs. unfold filledDayMap. rewrite Hs.
  rewrite fillDays_zeroDays.
  - by rewrite daysToFill_setHours0.
  - intros k Hk. by apply elem_of_nil in Hk.
Qed.

Lemma zeroDays_keys d n : map fst (zeroDays d n) = seqZ d (Z.of_nat n).
Proof.
  unfold zeroDays. rewrite map_map. simpl. apply map_id.
Qed.

Lemma earliest_start e1 e2 l : earliest e1 l -> earliest e2 l -> start e1 = start e2.
Proof.
  intros [Hin1 Hmin1] [Hin2 Hmin2].
  apply Hmin1 in Hin2. apply Hmin2 in Hin1. lia.
Qed.

(** The days of the series: as many as from the day of the earliest session
    to today, in a row. *)
Lemma chartData_dates tz now l e :
  earliest e l ->
  map date (chartData tz now l)
  = seqZ (firstDay tz (start e)) (Z.of_nat (Z.to_nat (daysThrough tz (start e) now))).
Proof.
  intros He. unfold chartData.
  destruct l as [|s0 l0] eqn:Hl.
  { destruct He as [Hin _]. by apply elem_of_nil in Hin. }
  rewrite <- Hl in *. assert (l ≠ []) as Hne by by rewrite Hl.
  replace (length l =? 0)%nat with false by by rewrite Hl.
  destruct (sortByStart_nonempty l Hne) as (first & rest & Hs).
  rewrite (filledDayMap_sorted _ _ _ _ _ Hs).
  rewrite dataPoints_date, fold_addPlay_keys, zeroDays_keys.
  by rewrite (earliest_start e first l He (sortByStart_head _ _ _ Hs)).
Qed.

Lemma dataPoints_elem_of tz c n (m : DayMap.t) e :
  e ∈ dataPoints tz c n m -> (date e, dailyPlay e) ∈ m.
Proof.
  revert c n. induction m as [|[d v] m IH]; intros c n; simpl.
  - intros Hin. by apply elem_of_nil in Hin.
  - intros Hin. apply elem_of_cons in Hin as [->|Hin]; [by left|].
    right. by eapply IH.
Qed.

(** The total of a day is the play time of the sessions that start on it. *)
Lemma chartData_dailyPlay tz now l e :
  e ∈ chartData tz now l -> (dailyPlay e == playOn (date e) l)%Q.
Proof.
  unfold chartData. destruct l as [|s0 l0] eqn:Hl.
  { intros Hin. by apply elem_of_nil in Hin. }
  rewrite <- Hl in *. assert (l ≠ []) as Hne by by rewrite Hl.
  replace (length l =? 0)%nat with false by by rewrite Hl.
  destruct (sortByStart_nonempty l Hne) as (first & rest & Hs).
  rewrite (filledDayMap_sorted _ _ _ _ _ Hs).
  set (m0 := zeroDays _ _). intros Hin.
  apply dataPoints_elem_of in Hin.
  assert (NoDup (map fst m0)) as Hnd0.
  { unfold m0. rewrite zeroDays_keys. apply NoDup_seqZ. }
  assert (DayMap.get (date e) m0 = Some 0%Q) as Hget0.
  { apply DayMap_get_Some; [done|].
    assert (date e ∈ map fst m0) as Hk.
    { rewrite <- (fold_addPlay_keys (first :: rest)).
      apply list_elem_of_fmap. by exists (date e, dailyPlay e). }
    unfold m0, zeroDays in *. rewrite map_map in Hk. simpl in Hk.
    rewrite map_id in Hk.
    apply list_elem_of_fmap. by exists (date e). }
  destruct (fold_addPlay_get (date e) (first :: rest) m0 _ Hget0)
    as (v' & Hget & Heq).
  apply DayMap_get_Some in Hin; [|by rewrite fold_addPlay_keys].
  rewrite Hin in Hget. injection Hget as <-.
  rewrite Heq, Qplus_0_l, <- Hs.
  apply playOn_Permutation, sortByStart_Permutation.
Qed.



Lemma chartData_lookup_date tz now l e k entry :
  earliest e l ->
  chartData tz now l !! k = Some entry ->
  date entry = firstDay tz (start e) + Z.of_nat k.
Proof.
  intros He Hk.
  assert (map date (chartData tz now l) !! k = Some (date entry)) as Hd.
  { by rewrite list_lookup_fmap, Hk. }
  rewrite (chartData_dates _ _ _ _ He) in Hd.
  by apply lookup_seqZ in Hd as [-> _].
Qed.

Lemma firstDay_utc t : firstDay 0 t = JSDate.isoDay t.
Proof.
  unfold firstDay, JSDate.isoDay, JSDate.setHours0, JSDate.localDay.
  rewrite Z.add_0_r, Z.sub_0_r. by rewrite Z.div_mul.
Qed.

Lemma localDay_utc t : JSDate.localDay 0 t = JSDate.isoDay t.
Proof. unfold JSDate.localDay, JSDate.isoDay. by rewrite Z.add_0_r. Qed.


Lemma chartData_average tz now l k entry :
  chartData tz now l !! k = Some entry ->
  (average entry
   == Qsum (map dailyPlay (take (S k) (chartData tz now l)))
      / inject_Z (Z.of_nat (S k)))%Q.
Proof.
  unfold chartData. destruct (length l =? 0)%nat; [done|]. intros Hk.
  rewrite (dataPoints_average _ _ _ _ _ _ Hk).
  rewrite <- (dataPoints_dailyPlay tz 0 0).
  change (take (S k) (map dailyPlay ?s)) with (take (S k) (dailyPlay <$> s)).
  rewrite <- fmap_take, Qplus_0_l.
  by replace (0 + Z.of_nat k + 1) with (Z.of_nat (S k)) by lia.
Qed.

Lemma Qsum_map_plus {A} (f g : A -> Q) (l : list A) :
  (Qsum (map (fun x => f x + g x) l) == Qsum (map f l) + Qsum (map g l))%Q.
Proof. induction l as [|x l IH]; simpl; [ring|]. rewrite IH. ring. Qed.

Lemma Qsum_map_zero {A} (l : list A) : (Qsum (map (fun _ => 0) l) == 0)%Q.
Proof. induction l as [|x l IH]; simpl; [done|]. rewrite IH. ring. Qed.

Lemma Qsum_map_Qeq {A} (f g : A -> Q) (l : list A) :
  (∀ x, x ∈ l -> (f x == g x)%Q) -> (Qsum (map f l) == Qsum (map g l))%Q.
Proof.
  induction l as [|x l IH]; intros Hfg; simpl; [done|].
  rewrite (Hfg x) by by left. rewrite IH; [done|].
  intros y Hy. apply Hfg. by right.
Qed.

(** Over days that do not repeat, the seconds of one day are counted once. *)
Lemma Qsum_one_day (k : Z) (v : Q) (days : list Z) :
  NoDup days -> k ∈ days ->
  (Qsum (map (fun d => if decide (d = k) then v else 0) days) == v)%Q.
Proof.
  induction days as [|d days IH]; intros Hnd Hk.
  - by apply elem_of_nil in Hk.
  - apply NoDup_cons in Hnd as [Hd Hnd]. simpl.
    destruct (decide (d = k)) as [->|Hne].
    + rewrite (Qsum_map_Qeq _ (fun _ => 0%Q)); [rewrite Qsum_map_zero; ring|].
      intros y Hy. destruct (decide (y = k)) as [->|_]; done.
    + apply elem_of_cons in Hk as [->|Hk]; [done|].
      rewrite IH by done. ring.
Qed.

Lemma playOn_cons d s l :
  (playOn d (s :: l)
   == (if decide (d = JSDate.isoDay (start s)) then duration s else 0)
      + playOn d l)%Q.
Proof.
  unfold playOn, sessionsOn.
  destruct (decide (d = JSDate.isoDay (start s))) as [->|Hne].
  - rewrite filter_cons_True by done. reflexivity.
  - rewrite filter_cons_False by done. ring.
Qed.

(** When every session starts on one of the days, the totals of the days add
    up to the durations of all the sessions. *)
Lemma Qsum_playOn (days : list Z) (l : list Session) :
  NoDup days ->
  (∀ s, s ∈ l -> JSDate.isoDay (start s) ∈ days) ->
  (Qsum (map (fun d => playOn d l) days) == Qsum (map duration l))%Q.
Proof.
  intros Hnd. induction l as [|s l IH]; intros Hin.
  - rewrite (Qsum_map_Qeq _ (fun _ => 0%Q)); [apply Qsum_map_zero | done].
  - rewrite (Qsum_map_Qeq _ _ _ (fun d _ => playOn_cons d s l)).
    rewrite Qsum_map_plus, Qsum_one_day, IH; [done| |done|].
    + intros s' Hs'. apply Hin. by right.
    + apply Hin. by left.
Qed.

Lemma chartData_dates_NoDup tz now l : NoDup (map date (chartData tz now l)).
Proof.
  destruct l as [|s0 l0] eqn:Hl; [constructor|]. rewrite <- Hl.
  assert (l ≠ []) as Hne by by rewrite Hl.
  destruct (sortByStart_nonempty l Hne) as (first & rest & Hs).
  rewrite (chartData_dates tz now l first (sortByStart_head _ _ _ Hs)).
  apply NoDup_seqZ.
Qed.

(** The totals of the series add up to the durations of all the sessions,
    when none of them starts on a day without an entry. *)
Lemma chartData_total tz now l :
  (∀ s, s ∈ l -> JSDate.isoDay (start s) ∈ map date (chartData tz now l)) ->
  (Qsum (map dailyPlay (chartData tz now l)) == Qsum (map duration l))%Q.
Proof.
  intros Hin.
  rewrite <- (Qsum_playOn (map date (chartData tz now l)) l);
    [|apply chartData_dates_NoDup | done].
  rewrite map_map. apply Qsum_map_Qeq.
  intros entry Hentry. by apply (chartData_dailyPlay tz now).
Qed.

(** C2. The average of the [N]-th entry of the day series is the sum of the
    totals of the first [N] days over [N], the days of total zero counting
    among the [N]; so the average of the last entry is the sum of the totals
    of all the days over the number of days, which is the sum of the
    durations of all the sessions over the number of days when every session
    starts on a day of the series.  A series whose days total 600 and 0 has
    averages 600 and 300, and this is the series of the scenario. *)
Theorem cumulative_average_of_day_totals (tz now : Z) (l : list Session)
    (N : nat) (entry : DayEntry) :
  chartData tz now l !! N = Some entry ->
  (average entry
   == Qsum (map dailyPlay (take (S N) (chartData tz now l)))
      / inject_Z (Z.of_nat (S N)))%Q
  /\ (∀ final, last (chartData tz now l) = Some final ->
       (average final
        == Qsum (map dailyPlay (chartData tz now l))
           / inject_Z (Z.of_nat (length (chartData tz now l))))%Q)
  /\ (∀ final, last (chartData tz now l) = Some final ->
       (∀ s, s ∈ l -> JSDate.isoDay (start s) ∈ map date (chartData tz now l)) ->
       (average final
        == Qsum (map duration l)
           / inject_Z (Z.of_nat (length (chartData tz now l))))%Q)
  /\ (Forall2 Qeq (map dailyPlay (chartData tz now l)) [600%Q; 0%Q] ->
      Forall2 Qeq (map average (chartData tz now l)) [600%Q; 300%Q])
  /\ Forall2 Qeq (map dailyPlay (chartData 0 scenarioNow scenarioSessions))
       [600%Q; 0%Q]
  /\ Forall2 Qeq (map average (chartData 0 scenarioNow scenarioSessions))
       [600%Q; 300%Q].
Proof.
  intros HN. split; [by apply chartData_average|].
  assert (∀ final, last (chartData tz now l) = Some final ->
       (average final
        == Qsum (map dailyPlay (chartData tz now l))
           / inject_Z (Z.of_nat (length (chartData tz now l))))%Q) as Hfinal.
  { intros final Hlast. rewrite last_lookup in Hlast.
    rewrite (chartData_average _ _ _ _ _ Hlast).
    assert (length (chartData tz now l) ≠ O) as Hlen.
    { intros H0. by rewrite H0 in Hlast; destruct (chartData tz now l). }
    replace (S (pred (length (chartData tz now l))))
      with (length (chartData tz now l)) by lia.
    by rewrite firstn_all. }
  split; [done|]. split; [|split].
  - intros final Hlast Hin.
    by rewrite (Hfinal final Hlast), (chartData_total _ _ _ Hin).
  - intros Htotals.
    destruct (chartData tz now l) as [|e0 [|e1 [|e2 rest]]] eqn:Hseries;
      try by (apply Forall2_length in Htotals).
    pose proof (chartData_average tz now l 0 e0) as H0.
    pose proof (chartData_average tz now l 1 e1) as H1.
    rewrite Hseries in H0, H1. specialize (H0 eq_refl). specialize (H1 eq_refl).
    simpl in H0, H1, Htotals.
    apply Forall2_cons in Htotals as [Hd0 Htotals].
    apply Forall2_cons in Htotals as [Hd1 _].
    rewrite Hd0 in H0. rewrite Hd0, Hd1 in H1.
    simpl. repeat constructor.
    + rewrite H0. reflexivity.
    + rewrite H1. reflexivity.
  - split; vm_compute; repeat constructor.
Qed.

(** ** The properties at work *)



Lemma cumulative_average_of_day_totals_witness :
  chartData 0 scenarioNow scenarioSessions !! 1%nat = Some scenarioSecondEntry
  /\ (average scenarioSecondEntry
      == Qsum (map dailyPlay (take 2 (chartData 0 scenarioNow scenarioSessions)))
         / inject_Z 2)%Q.
Proof.
  assert (chartData 0 scenarioNow scenarioSessions !! 1%nat
          = Some scenarioSecondEntry) as H1 by (vm_compute; reflexivity).
  split; [exact H1|].
  exact (proj1 (cumulative_average_of_day_totals 0 scenarioNow
                  scenarioSessions 1 scenarioSecondEntry H1)).
Defined.


Lemma trend_indicator_witness :
  head fallingSeries = Some fallingFirst
  /\ last fallingSeries = Some fallingLast
  /\ (average fallingFirst == 300)%Q /\ (average fallingLast == 200)%Q
  /\ isProfit fallingSeries = false /\ color fallingSeries = red
  /\ priceClass None fallingSeries = "text-red-500"%string
  /\ deltaPill None T7D fallingSeries
     = Some (mkDeltaPill "text-red-400" ArrowDownRight "100s 7D").
Proof.
  assert ((average fallingFirst == 300)%Q) as H300 by reflexivity.
  assert ((average fallingLast == 200)%Q) as H200 by reflexivity.
  split; [reflexivity|]. split; [reflexivity|].
  split; [exact H300|]. split; [exact H200|].
  exact (proj2 (proj2
    (trend_indicator T7D fallingSeries fallingFirst fallingLast
       eq_refl eq_refl)) H300 H200).
Defined.

Lemma event_without_times_is_excluded_witness :
  lacksTime openEvent
  /\ newSessions ([hourEvent] ++ openEvent :: []) = newSessions ([hourEvent] ++ [])
  /\ length (mergeSessions (newSessions [openEvent]) scenarioSessions)
     = length scenarioSessions.
Proof.
  assert (lacksTime openEvent) as He by (right; reflexivity).
  pose proof (event_without_times_is_excluded [hourEvent] [] openEvent
                scenarioSessions [trackerCalendar] signedIn He)
    as (Hn & _ & Hl & _).
  split; [exact He|]. split; [exact Hn | exact Hl].
Defined.

Lemma event_duration_in_seconds_witness :
  ∃ r, eventToSession hourEvent = Some r
    /\ newSessions [hourEvent] = [r]
    /\ start r = 1766048400000
    /\ (duration r == (1766052000000 - 1766048400000) # 1000)%Q
    /\ (duration r * 1000 == inject_Z (1766052000000 - 1766048400000))%Q.
Proof.
  exact (event_duration_in_seconds hourEvent 1766048400000 1766052000000
           eq_refl eq_refl).
Defined.

Lemma failed_sync_changes_nothing_witness :
  syncStarts signedIn
  /\ fetchFails offlineGapi
  /\ isSyncing (fst (handleSync offlineGapi signedIn)) = false
  /\ sessions (fst (handleSync offlineGapi signedIn)) = sessions signedIn
  /\ Alert failedMessage ∈ snd (handleSync offlineGapi signedIn).
Proof.
  assert (syncStarts signedIn) as Hs by (split; [reflexivity | by eexists]).
  assert (fetchFails offlineGapi) as Hf by (left; by eexists).
  pose proof (failed_sync_changes_nothing offlineGapi signedIn Hs)
    as (Hflag & Hsame & Hnotice & _).
  split; [exact Hs|]. split; [exact Hf|]. split; [exact Hflag|].
  split; [exact (proj1 (proj2 (Hsame (or_introl Hf)))) | exact (Hnotice Hf)].
Defined.

(** The series of the scenario, and a sync on top of it: the event without
    an end is left out, the one that starts with the second session is taken
    for a duplicate, and the third is added. *)
Example chartData_scenario :
  chartData 0 scenarioNow scenarioSessions
  = [ {| date := 20439; average := 600; dailyPlay := 600;
         formattedDate := "Dec 17" |};
      scenarioSecondEntry ].
Proof. by vm_compute. Qed.

Example handleSync_scenario :
  handleSync onlineGapi signedIn
  = (mkAppState T7D
       (scenarioSessions
        ++ [ mkSession "ev3" 1766052000000 (1800000 # 1000) google ])
       false true (Some CurrentUser) None,
     []).
Proof. by vm_compute. Qed.

(** East of UTC the local midnight lies on the UTC day before.  In Tokyo
    (nine hours ahead), at ten in the morning of 18 December 2025, with one
    session of 600 seconds begun half an hour earlier, the series is one
    entry, dated 17 December, with nothing played: the session starts on the
    18th, UTC, a day that has no entry. *)
Example east_of_utc_series :
  map (fun d => (date d, dailyPlay d, formattedDate d))
    (chartData 32400000 1766019600000
       [ mkSession "2025-12-18T09:30:00+09:00" 1766017800000 600 csv ])
  = [ (20439, 0%Q, "Dec 17"%string) ].
Proof. by vm_compute. Qed.

(** ** The text of a date and the number of its day *)

(** What a passed check says of each day it went through. *)
Lemma eraCheck_spec n d0 :
  Calendar.eraCheck n d0 (Calendar.civilOfEra d0) = true ->
  ∀ doe, d0 <= doe <= d0 + Z.of_nat n ->
    Calendar.eraDayOk (Calendar.civilOfEra doe) = true
    /\ (doe < d0 + Z.of_nat n ->
        Calendar.eraStepOk (Calendar.civilOfEra doe)
          (Calendar.civilOfEra (doe + 1)) = true).
Proof.
  revert d0. induction n as [|n IH]; intros d0 Hc doe Hdoe.
  - simpl in Hc. replace doe with d0 by lia. split; [done | lia].
  - simpl in Hc. apply andb_prop in Hc as [Hc Hrest].
    apply andb_prop in Hc as [Hday Hstep].
    destruct (decide (doe = d0)) as [->|Hne]; [done|].
    destruct (IH (d0 + 1) Hrest doe) as [Hd Hs]; [lia|].
    split; [done|]. intros Hlt. apply Hs. lia.
Qed.

(** Every day of an era passes, by evaluation. *)
Lemma era_checked :
  Calendar.eraCheck (Z.to_nat 146096) 0 (Calendar.civilOfEra 0) = true.
Proof. vm_compute. reflexivity. Qed.

Lemma era_step doe :
  0 <= doe < 146096 ->
  Calendar.tripleCompare (Calendar.civilOfEra doe)
    (Calendar.civilOfEra (doe + 1)) = Lt.
Proof.
  intros Hdoe.
  destruct (eraCheck_spec _ _ era_checked doe) as [_ Hstep]; [lia|].
  specialize (Hstep ltac:(lia)). unfold Calendar.eraStepOk in Hstep.
  by destruct (Calendar.tripleCompare _ _).
Qed.

Lemma era_day doe :
  0 <= doe < 146097 ->
  ∃ y m d, Calendar.civilOfEra doe = (y, m, d)
    /\ 0 <= y <= 400 /\ 1 <= m <= 12 /\ 1 <= d <= 31.
Proof.
  intros Hdoe.
  destruct (eraCheck_spec _ _ era_checked doe) as [Hok _]; [lia|].
  unfold Calendar.eraDayOk in Hok.
  destruct (Calendar.civilOfEra doe) as [[y m] d].
  exists y, m, d. split; [done|].
  repeat (apply andb_prop in Hok as [Hok ?]). lia.
Qed.

Lemma tripleCompare_shift y1 m1 d1 y2 m2 d2 c :
  Calendar.tripleCompare (y1 + c, m1, d1) (y2 + c, m2, d2)
  = Calendar.tripleCompare (y1, m1, d1) (y2, m2, d2).
Proof.
  unfold Calendar.tripleCompare.
  by rewrite (Z.add_comm y1 c), (Z.add_comm y2 c), Z.add_compare_mono_l.
Qed.

Lemma tripleCompare_Lt y1 m1 d1 y2 m2 d2 :
  Calendar.tripleCompare (y1, m1, d1) (y2, m2, d2) = Lt
  <-> y1 < y2 \/ (y1 = y2 /\ (m1 < m2 \/ (m1 = m2 /\ d1 < d2))).
Proof.
  unfold Calendar.tripleCompare.
  destruct (Z.compare_spec y1 y2), (Z.compare_spec m1 m2),
    (Z.compare_spec d1 d2); split; first [done | lia].
Qed.

Lemma tripleCompare_Lt_trans a b c :
  Calendar.tripleCompare a b = Lt -> Calendar.tripleCompare b c = Lt ->
  Calendar.tripleCompare a c = Lt.
Proof.
  destruct a as [[y1 m1] d1], b as [[y2 m2] d2], c as [[y3 m3] d3].
  rewrite !tripleCompare_Lt. lia.
Qed.

(** The day after is a later date. *)
Lemma civil_succ day :
  Calendar.tripleCompare (Calendar.civil day) (Calendar.civil (day + 1)) = Lt.
Proof.
  unfold Calendar.civil, Calendar.daysPerEra.
  set (z := day + 719468). replace (day + 1 + 719468) with (z + 1) by lia.
  assert (0 <= z mod 146097 < 146097) as Hr by (apply Z.mod_pos_bound; lia).
  pose proof (Z.div_mod z 146097 ltac:(lia)) as Hz.
  destruct (decide (z mod 146097 = 146096)) as [Hlast|Hnot].
  - assert ((z + 1) mod 146097 = 0 /\ (z + 1) / 146097 = z / 146097 + 1)
      as [-> ->].
    { assert (z + 1 = (z / 146097 + 1) * 146097 + 0) as Heq by lia.
      split; [symmetry; eapply Z.mod_unique_pos | symmetry; eapply Z.div_unique_pos];
        try (rewrite Z.mul_comm in Heq; exact Heq); lia. }
    rewrite Hlast.
    change (Calendar.civilOfEra 146096) with (400, 2, 29).
    change (Calendar.civilOfEra 0) with (0, 3, 1).
    unfold Calendar.tripleCompare.
    replace (0 + (z / 146097 + 1) * 400) with (400 + z / 146097 * 400) by lia.
    by rewrite Z.compare_refl.
  - assert ((z + 1) mod 146097 = z mod 146097 + 1
            /\ (z + 1) / 146097 = z / 146097) as [-> ->].
    { assert (z + 1 = z / 146097 * 146097 + (z mod 146097 + 1)) as Heq by lia.
      split; [symmetry; eapply Z.mod_unique_pos | symmetry; eapply Z.div_unique_pos];
        try (rewrite Z.mul_comm in Heq; exact Heq); lia. }
    pose proof (era_step (z mod 146097) ltac:(lia)) as Hstep.
    destruct (Calendar.civilOfEra (z mod 146097)) as [[y1 m1] d1].
    destruct (Calendar.civilOfEra (z mod 146097 + 1)) as [[y2 m2] d2].
    by rewrite tripleCompare_shift.
Qed.

Lemma civil_lt d1 d2 :
  d1 < d2 ->
  Calendar.tripleCompare (Calendar.civil d1) (Calendar.civil d2) = Lt.
Proof.
  intros Hlt. replace d2 with (d1 + 1 + Z.of_nat (Z.to_nat (d2 - d1 - 1))) by lia.
  induction (Z.to_nat (d2 - d1 - 1)) as [|n IH].
  - rewrite Z.add_0_r. apply civil_succ.
  - eapply tripleCompare_Lt_trans; [exact IH|].
    replace (d1 + 1 + Z.of_nat (S n)) with (d1 + 1 + Z.of_nat n + 1) by lia.
    apply civil_succ.
Qed.

Lemma tripleCompare_refl a : Calendar.tripleCompare a a = Eq.
Proof.
  destruct a as [[y m] d]. unfold Calendar.tripleCompare.
  by rewrite !Z.compare_refl.
Qed.

Lemma tripleCompare_antisym a b :
  Calendar.tripleCompare a b = CompOpp (Calendar.tripleCompare b a).
Proof.
  destruct a as [[y1 m1] d1], b as [[y2 m2] d2]. unfold Calendar.tripleCompare.
  rewrite (Z.compare_antisym y1 y2), (Z.compare_antisym m1 m2),
    (Z.compare_antisym d1 d2).
  by destruct (y1 ?= y2), (m1 ?= m2), (d1 ?= d2).
Qed.

(** Dates are in the order of their day numbers. *)
Lemma civil_compare d1 d2 :
  Calendar.tripleCompare (Calendar.civil d1) (Calendar.civil d2) = (d1 ?= d2).
Proof.
  destruct (Z.compare_spec d1 d2) as [->|Hlt|Hgt].
  - apply tripleCompare_refl.
  - by apply civil_lt.
  - by rewrite tripleCompare_antisym, civil_lt.
Qed.

Lemma civil_month_day day :
  ∃ y m d, Calendar.civil day = (y, m, d) /\ 1 <= m <= 12 /\ 1 <= d <= 31.
Proof.
  unfold Calendar.civil, Calendar.daysPerEra.
  destruct (era_day ((day + 719468) mod 146097)) as (y & m & d & -> & _ & Hm & Hd).
  { apply Z.mod_pos_bound. lia. }
  by eexists _, m, d.
Qed.

Lemma civil_fourDigitYear day :
  Calendar.fourDigitYear day ->
  ∃ y m d, Calendar.civil day = (y, m, d)
    /\ 0 <= y <= 9999 /\ 1 <= m <= 12 /\ 1 <= d <= 31.
Proof.
  unfold Calendar.fourDigitYear, Calendar.firstDay0000, Calendar.lastDay9999.
  intros [Hlo Hhi].
  destruct (civil_month_day day) as (y & m & d & Hc & Hm & Hd).
  exists y, m, d. split; [done|]. split; [|done].
  pose proof (civil_compare (-719528) day) as Hfirst.
  pose proof (civil_compare day 2932896) as Hlast.
  rewrite Hc in Hfirst, Hlast.
  change (Calendar.civil (-719528)) with (0, 1, 1) in Hfirst.
  change (Calendar.civil 2932896) with (9999, 12, 31) in Hlast.
  unfold Calendar.tripleCompare in Hfirst, Hlast.
  destruct (Z.compare_spec 0 y), (Z.compare_spec y 9999),
    (Z.compare_spec (-719528) day), (Z.compare_spec day 2932896);
    try lia; try done.
Qed.

(** The digits are in the order of their values. *)
Lemma digit_compare i j :
  0 <= i <= 9 -> 0 <= j <= 9 ->
  Ascii.compare (Calendar.digit i) (Calendar.digit j) = (i ?= j).
Proof.
  intros Hi Hj. unfold Ascii.compare, Calendar.digit.
  rewrite !Ascii.N_ascii_embedding by lia.
  rewrite <- N2Z.inj_compare, !N2Z.inj_add, !Z2N.id by lia.
  apply Z.add_compare_mono_l.
Qed.

Lemma pad2_compare a b k1 k2 :
  0 <= a < 100 -> 0 <= b < 100 ->
  String.compare (Calendar.pad2 a k1) (Calendar.pad2 b k2)
  = match a ?= b with Eq => String.compare k1 k2 | c => c end.
Proof.
  intros Ha Hb. unfold Calendar.pad2.
  pose proof (Z.div_mod a 10 ltac:(lia)) as Hqa.
  pose proof (Z.div_mod b 10 ltac:(lia)) as Hqb.
  pose proof (Z.mod_pos_bound a 10 ltac:(lia)) as Hra.
  pose proof (Z.mod_pos_bound b 10 ltac:(lia)) as Hrb.
  assert (0 <= a / 10 <= 9 /\ 0 <= b / 10 <= 9) as [Hda Hdb] by lia.
  cbn [String.compare].
  rewrite !digit_compare by lia.
  destruct (Z.compare_spec (a / 10) (b / 10)),
    (Z.compare_spec (a mod 10) (b mod 10)), (Z.compare_spec a b);
    first [done | lia].
Qed.

Lemma pad4_compare a b k1 k2 :
  0 <= a < 10000 -> 0 <= b < 10000 ->
  String.compare (Calendar.pad4 a k1) (Calendar.pad4 b k2)
  = match a ?= b with Eq => String.compare k1 k2 | c => c end.
Proof.
  intros Ha Hb. unfold Calendar.pad4.
  pose proof (Z.div_mod a 100 ltac:(lia)) as Hqa.
  pose proof (Z.div_mod b 100 ltac:(lia)) as Hqb.
  pose proof (Z.mod_pos_bound a 100 ltac:(lia)) as Hra.
  pose proof (Z.mod_pos_bound b 100 ltac:(lia)) as Hrb.
  assert (0 <= a / 100 < 100 /\ 0 <= b / 100 < 100) as [Hda Hdb] by lia.
  rewrite !pad2_compare by lia.
  destruct (Z.compare_spec (a / 100) (b / 100)),
    (Z.compare_spec (a mod 100) (b mod 100)), (Z.compare_spec a b);
    first [done | lia].
Qed.

Lemma compare_same_head c s1 s2 :
  String.compare (String c s1) (String c s2) = String.compare s1 s2.
Proof. cbn [String.compare]. unfold Ascii.compare. by rewrite N.compare_refl. Qed.

(** On the years 0000 to 9999 the texts of two dates compare, as strings, the
    way the numbers of their days do: the numbers stand for the texts in
    tests of equality and of order alike. *)
Lemma isoText_compare d1 d2 :
  Calendar.fourDigitYear d1 -> Calendar.fourDigitYear d2 ->
  String.compare (Calendar.isoText d1) (Calendar.isoText d2) = (d1 ?= d2).
Proof.
  intros H1 H2. rewrite <- civil_compare. unfold Calendar.isoText.
  destruct (civil_fourDigitYear d1 H1) as (y1 & m1 & dd1 & -> & Hy1 & Hm1 & Hd1).
  destruct (civil_fourDigitYear d2 H2) as (y2 & m2 & dd2 & -> & Hy2 & Hm2 & Hd2).
  unfold Calendar.yearText, Calendar.tripleCompare.
  replace ((0 <=? y1) && (y1 <=? 9999)) with true
    by (symmetry; apply andb_true_intro; split; apply Z.leb_le; lia).
  replace ((0 <=? y2) && (y2 <=? 9999)) with true
    by (symmetry; apply andb_true_intro; split; apply Z.leb_le; lia).
  rewrite pad4_compare by lia.
  destruct (y1 ?= y2); try done.
  rewrite compare_same_head, pad2_compare by lia.
  destruct (m1 ?= m2); try done.
  rewrite compare_same_head, pad2_compare by lia.
  by destruct (dd1 ?= dd2).
Qed.

Lemma isoText_leb d1 d2 :
  Calendar.fourDigitYear d1 -> Calendar.fourDigitYear d2 ->
  String.leb (Calendar.isoText d1) (Calendar.isoText d2) = (d1 <=? d2).
Proof.
  intros H1 H2. unfold String.leb, Z.leb.
  by rewrite isoText_compare.
Qed.

Lemma isoText_eqb d1 d2 :
  Calendar.fourDigitYear d1 -> Calendar.fourDigitYear d2 ->
  String.eqb (Calendar.isoText d1) (Calendar.isoText d2) = (d1 =? d2).
Proof.
  intros H1 H2. pose proof (isoText_compare d1 d2 H1 H2) as Hc.
  destruct (String.eqb_spec (Calendar.isoText d1) (Calendar.isoText d2)) as [Heq|Hne];
    destruct (Z.eqb_spec d1 d2) as [->|Hd]; try done.
  - rewrite Heq in Hc.
    assert (String.compare (Calendar.isoText d2) (Calendar.isoText d2) = Eq) as Hrefl.
    { pose proof (String.compare_antisym (Calendar.isoText d2) (Calendar.isoText d2)) as Ha.
      by destruct (String.compare _ _). }
    rewrite Hrefl in Hc. symmetry in Hc. by apply Z.compare_eq in Hc.
Qed.

(** So the filter of the view, which compares the texts, keeps the entries
    that the comparison of the day numbers keeps. *)
Lemma filter_by_text (cutoff : Z) (series : list DayEntry) :
  Calendar.fourDigitYear cutoff ->
  Forall (fun d => Calendar.fourDigitYear (date d)) series ->
  List.filter
    (fun d => String.leb (Calendar.isoText cutoff) (Calendar.isoText (date d)))
    series
  = List.filter (fun d => cutoff <=? date d) series.
Proof.
  intros Hc. induction 1 as [|d series Hd _ IH]; simpl; [done|].
  by rewrite isoText_leb, IH.
Qed.

Example isoText_scenario :
  Calendar.isoText (JSDate.isoDay scenarioNow) = "2025-12-18"%string
  /\ Calendar.isoText 0 = "1970-01-01"%string
  /\ Calendar.isoText Calendar.firstDay0000 = "0000-01-01"%string
  /\ Calendar.isoText Calendar.lastDay9999 = "9999-12-31"%string
  /\ formatDate 0 20439 = "Dec 17"%string
  /\ formatDate 0 19782 = "Feb 29"%string.
Proof. by vm_compute. Qed.

(** * Further properties *)

(** ** The duration helper *)

Lemma Qfloor_unique (x : Q) (z : Z) :
  (inject_Z z <= x)%Q -> (x < inject_Z (z + 1))%Q -> Qfloor x = z.
Proof.
  intros Hlo Hhi.
  pose proof (Qfloor_le x) as Hfl. pose proof (Qlt_floor x) as Hfu.
  assert (inject_Z z < inject_Z (Qfloor x + 1))%Q as H1 by lra.
  assert (inject_Z (Qfloor x) < inject_Z (z + 1))%Q as H2 by lra.
  rewrite <- Zlt_Qlt in H1, H2. lia.
Qed.

Lemma Qfloor_sub_Z (x : Q) (k : Z) : Qfloor (x - inject_Z k) = Qfloor x - k.
Proof.
  apply Qfloor_unique.
  - pose proof (Qfloor_le x). unfold Z.sub. rewrite inject_Z_plus, inject_Z_opp. lra.
  - pose proof (Qlt_floor x) as Hfu.
    replace (Qfloor x - k + 1) with ((Qfloor x + 1) + - k) by lia.
    rewrite inject_Z_plus, inject_Z_opp. lra.
Qed.

Lemma Qdiv_by (x : Q) (p : positive) : (x / inject_Z (Zpos p) == x * (1 # p))%Q.
Proof. reflexivity. Qed.

Lemma Qtrunc_nonneg (x : Q) : (0 <= x)%Q -> Qtrunc x = Qfloor x.
Proof. intros Hx. unfold Qtrunc. by apply Qle_bool_iff in Hx as ->. Qed.

(** Of a value that is not negative the remainder is what exceeds the
    multiples of [n] below it. *)
Lemma remainder_nonneg (x : Q) (p : positive) :
  (0 <= x)%Q ->
  (remainder x (Zpos p)
   == x - inject_Z (Zpos p) * inject_Z (Qfloor (x / inject_Z (Zpos p))))%Q
  /\ (0 <= remainder x (Zpos p))%Q
  /\ (remainder x (Zpos p) < inject_Z (Zpos p))%Q.
Proof.
  intros Hx. unfold remainder.
  assert (0 <= x / inject_Z (Z.pos p))%Q as Hq.
  { rewrite Qdiv_by. apply Qmult_le_0_compat; [done|]. by unfold Qle. }
  rewrite (Qtrunc_nonneg _ Hq), inject_Z_mult.
  pose proof (Qfloor_le (x / inject_Z (Z.pos p))) as Hlo.
  pose proof (Qlt_floor (x / inject_Z (Z.pos p))) as Hhi.
  rewrite inject_Z_plus in Hhi.
  assert (0 < inject_Z (Z.pos p))%Q as Hp by by unfold Qlt.
  assert (x == inject_Z (Z.pos p) * (x / inject_Z (Z.pos p)))%Q as Hx'.
  { rewrite Qmult_div_r; [done|]. lra. }
  set (q := (x / inject_Z (Z.pos p))%Q) in *.
  set (f := inject_Z (Qfloor q)) in *.
  split; [done|]. split.
  - assert (inject_Z (Z.pos p) * f <= inject_Z (Z.pos p) * q)%Q
      by (apply Qmult_le_l; done).
    lra.
  - assert (inject_Z (Z.pos p) * q < inject_Z (Z.pos p) * (f + inject_Z 1))%Q
      by (apply Qmult_lt_l; done).
    change (inject_Z 1) with 1%Q in *. lra.
Qed.

(** X1 (the parts of a duration).  For a duration that is not negative the
    hours are not negative, the minutes run from 0 to 59 and the seconds
    from 0 to 60; what the three add up to is within half a second of the
    duration; and the seconds read 60, with no carry into the minutes,
    exactly when the duration is half a second or less short of a whole
    minute. *)
Theorem formatDuration_parts (x : Q) (h m s : Z) :
  (0 <= x)%Q ->
  durationParts x = (h, m, s) ->
  0 <= h /\ 0 <= m <= 59 /\ 0 <= s <= 60
  /\ (- (1 # 2) < inject_Z (3600 * h + 60 * m + s) - x)%Q
  /\ (inject_Z (3600 * h + 60 * m + s) - x <= 1 # 2)%Q
  /\ (s = 60 <-> (59 + (1 # 2) <= remainder x 60)%Q)
  /\ formatDuration x
     = if h =? 0 then (numeral m ++ "m " ++ numeral s ++ "s")%string
       else (numeral h ++ "h " ++ numeral m ++ "m " ++ numeral s ++ "s")%string.
Proof.
  intros Hx Hparts.
  assert (formatDuration x
     = if h =? 0 then (numeral m ++ "m " ++ numeral s ++ "s")%string
       else (numeral h ++ "h " ++ numeral m ++ "m " ++ numeral s ++ "s")%string)
    as Htext by (unfold formatDuration; by rewrite Hparts).
  assert (Qfloor (x / inject_Z 3600) = h
          /\ Qfloor (remainder x 3600 / inject_Z 60) = m
          /\ Math_round (remainder x 60) = s) as (Hh & Hm & Hs).
  { pose proof (f_equal (fun p => fst (fst p)) Hparts) as H1.
    pose proof (f_equal (fun p => snd (fst p)) Hparts) as H2.
    pose proof (f_equal snd Hparts) as H3.
    unfold durationParts in H1, H2, H3. cbn [fst snd] in H1, H2, H3. done. }
  destruct (remainder_nonneg x 3600 Hx) as (HR & HR0 & HR1).
  destruct (remainder_nonneg x 60 Hx) as (Hr & Hr0 & Hr1).
  rewrite Hh in HR.
  set (R := remainder x 3600) in *. set (r := remainder x 60) in *.
  (* the hours *)
  assert (0 <= h) as Hh0.
  { rewrite <- Hh, <- (Qfloor_Z 0). apply Qfloor_resp_le.
    rewrite (Qdiv_by x 3600). apply Qmult_le_0_compat; [done|]. by unfold Qle. }
  (* the minutes, also as the minutes of the whole less those of the hours *)
  assert (m = Qfloor (x / 60) - 60 * h) as Hm'.
  { rewrite <- Hm, <- Qfloor_sub_Z. apply Qfloor_comp.
    rewrite (Qdiv_by R 60), (Qdiv_by x 60), HR, inject_Z_mult.
    change (inject_Z 60) with 60%Q. change (inject_Z 3600) with 3600%Q.
    field. }
  assert (0 <= m <= 59) as Hm0.
  { rewrite <- Hm. split.
    - rewrite <- (Qfloor_Z 0). apply Qfloor_resp_le.
      rewrite (Qdiv_by R 60). apply Qmult_le_0_compat; [done|]. by unfold Qle.
    - assert (Qfloor (R / inject_Z 60) < 60); [|lia].
      rewrite Zlt_Qlt. pose proof (Qfloor_le (R / inject_Z 60)) as Hf.
      assert (R / inject_Z 60 < 60)%Q as Hq.
      { rewrite (Qdiv_by R 60). change (inject_Z 3600) with 3600%Q in HR1.
        lra. }
      eapply Qle_lt_trans; [exact Hf | exact Hq]. }
  (* the seconds *)
  pose proof (Qfloor_le (r + (1 # 2))) as Hs_lo.
  pose proof (Qlt_floor (r + (1 # 2))) as Hs_hi.
  unfold Math_round in Hs. rewrite Hs in Hs_lo, Hs_hi.
  rewrite inject_Z_plus in Hs_hi. change (inject_Z 1) with 1%Q in Hs_hi.
  change (inject_Z 60) with 60%Q in Hr, Hr1.
  assert (0 <= s <= 60) as Hs0.
  { split.
    - assert (-1 < s); [|lia]. rewrite Zlt_Qlt.
      change (inject_Z (-1)) with (-1)%Q. lra.
    - assert (s < 61); [|lia]. rewrite Zlt_Qlt.
      change (inject_Z 61) with 61%Q. lra. }
  assert (inject_Z (3600 * h + 60 * m + s) - x == inject_Z s - r)%Q as Hsum.
  { rewrite Hr, Hm'.
    replace (3600 * h + 60 * (Qfloor (x / 60) - 60 * h) + s)
      with (60 * Qfloor (x / 60) + s) by lia.
    rewrite inject_Z_plus, inject_Z_mult.
    change (inject_Z 60) with 60%Q. ring. }
  repeat split; try lia.
  - rewrite Hsum. lra.
  - rewrite Hsum. lra.
  - intros ->. change (inject_Z 60) with 60%Q in Hs_lo. lra.
  - intros Hhalf. assert (59 < s); [|lia].
    rewrite Zlt_Qlt. change (inject_Z 59) with 59%Q. lra.
  - done.
Qed.

Lemma remainder_whole (n : Z) (p : positive) :
  0 <= n -> (remainder (inject_Z n) (Zpos p) == inject_Z (n mod Zpos p))%Q.
Proof.
  intros Hn. unfold remainder.
  rewrite Qtrunc_nonneg.
  - rewrite <- Zdiv_Qdiv. unfold Qminus.
    rewrite <- inject_Z_opp, <- inject_Z_plus.
    apply inject_Z_injective. rewrite Z.mod_eq by lia. lia.
  - rewrite Qdiv_by. apply Qmult_le_0_compat; [|by unfold Qle].
    change 0%Q with (inject_Z 0). by rewrite <- Zle_Qle.
Qed.

Lemma Math_round_whole (n : Z) : Math_round (inject_Z n) = n.
Proof.
  unfold Math_round. apply Qfloor_unique.
  - lra.
  - rewrite inject_Z_plus. change (inject_Z 1) with 1%Q. lra.
Qed.

(** X2 (whole seconds).  A whole number of seconds that is not negative is
    shown as its minutes and seconds when it is under an hour and as its
    hours, minutes and seconds from an hour on; nothing is lost: the parts
    shown add up to the number, minutes and seconds staying below 60. *)
Theorem formatDuration_whole_seconds (n : Z) :
  0 <= n ->
  durationParts (inject_Z n) = (n / 3600, n mod 3600 / 60, n mod 60)
  /\ 3600 * (n / 3600) + 60 * (n mod 3600 / 60) + n mod 60 = n
  /\ 0 <= n mod 3600 / 60 < 60 /\ 0 <= n mod 60 < 60
  /\ formatDuration (inject_Z n)
     = if n <? 3600
       then (numeral (n / 60) ++ "m " ++ numeral (n mod 60) ++ "s")%string
       else (numeral (n / 3600) ++ "h " ++ numeral (n mod 3600 / 60) ++ "m "
             ++ numeral (n mod 60) ++ "s")%string.
Proof.
  intros Hn.
  assert (durationParts (inject_Z n) = (n / 3600, n mod 3600 / 60, n mod 60))
    as Hparts.
  { unfold durationParts. f_equal; [f_equal|].
    - symmetry. apply Zdiv_Qdiv.
    - rewrite (Qfloor_comp _ (inject_Z (n mod 3600) / inject_Z 60)).
      + symmetry. apply Zdiv_Qdiv.
      + by rewrite (remainder_whole n 3600).
    - unfold Math_round.
      rewrite (Qfloor_comp _ (inject_Z (n mod 60) + (1 # 2))).
      + apply Math_round_whole.
      + by rewrite (remainder_whole n 60). }
  split; [done|].
  assert (3600 * (n / 3600) + 60 * (n mod 3600 / 60) + n mod 60 = n
          /\ 0 <= n mod 3600 / 60 < 60 /\ 0 <= n mod 60 < 60) as Harith.
  { pose proof (Z.div_mod n 3600 ltac:(lia)).
    pose proof (Z.mod_pos_bound n 3600 ltac:(lia)).
    pose proof (Z.div_mod (n mod 3600) 60 ltac:(lia)).
    pose proof (Z.mod_pos_bound (n mod 3600) 60 ltac:(lia)).
    pose proof (Z.mod_pos_bound n 60 ltac:(lia)).
    assert ((n mod 3600) mod 60 = n mod 60) as Hmm.
    { apply Z.mod_mod_divide. by exists 60. }
    assert (n mod 3600 / 60 < 60) by (apply Z.div_lt_upper_bound; lia).
    assert (0 <= n mod 3600 / 60) by (apply Z.div_pos; lia).
    lia. }
  split; [tauto|]. split; [tauto|]. split; [tauto|].
  unfold formatDuration. rewrite Hparts.
  destruct (Z.ltb_spec n 3600) as [Hlt|Hge].
  - rewrite Z.div_small by lia. simpl. by rewrite Z.mod_small by lia.
  - assert (0 < n / 3600) by (apply Z.div_str_pos; lia).
    by destruct (Z.eqb_spec (n / 3600) 0); [lia|].
Qed.

(** ** The labels of the chart *)

Lemma formatDate_shift tz d :
  formatDate tz d = formatDate 0 (d + tz / JSDate.msPerDay).
Proof.
  unfold formatDate, JSDate.localDay. rewrite !Z.add_0_r.
  rewrite (Z.add_comm (d * JSDate.msPerDay) tz), !Z.div_add by done.
  rewrite Z.div_mul by done.
  by replace (tz / JSDate.msPerDay + d) with (d + tz / JSDate.msPerDay) by lia.
Qed.

Lemma dataPoints_formattedDate tz c n (m : DayMap.t) e :
  e ∈ dataPoints tz c n m -> formattedDate e = formatDate tz (date e).
Proof.
  revert c n. induction m as [|[d v] m IH]; intros c n; simpl.
  - intros Hin. by apply elem_of_nil in Hin.
  - intros Hin. apply elem_of_cons in Hin as [->|Hin]; [done|].
    by eapply IH.
Qed.

Lemma chartData_formattedDate tz now l e :
  e ∈ chartData tz now l -> formattedDate e = formatDate tz (date e).
Proof.
  unfold chartData. destruct (length l =? 0)%nat.
  - intros Hin. by apply elem_of_nil in Hin.
  - apply dataPoints_formattedDate.
Qed.

Lemma monthShort_named m : 1 <= m <= 12 -> monthShort m ≠ ""%string.
Proof.
  intros Hm. assert (m ∈ seqZ 1 12) as Hin by (apply elem_of_seqZ; lia).
  vm_compute in Hin. unfold monthShort.
  repeat (apply elem_of_cons in Hin as [->|Hin]; [by vm_compute|]).
  by apply elem_of_nil in Hin.
Qed.

(** X3 (labels).  The label of an entry is a month, by its short name, and a
    day of the month, those of the entry's date moved by the whole days of
    the zone offset: west of UTC, by less than a day, the label is that of
    the day before the date; at UTC and east of it, by less than a day, it is
    that of the date. *)
Theorem chart_labels (tz now : Z) (l : list Session) (entry : DayEntry) :
  entry ∈ chartData tz now l ->
  formattedDate entry = formatDate 0 (date entry + tz / JSDate.msPerDay)
  /\ (- JSDate.msPerDay <= tz < 0 ->
      formattedDate entry = formatDate 0 (date entry - 1))
  /\ (0 <= tz < JSDate.msPerDay ->
      formattedDate entry = formatDate 0 (date entry))
  /\ ∃ y m d,
       Calendar.civil (date entry + tz / JSDate.msPerDay) = (y, m, d)
       /\ 1 <= m <= 12 /\ 1 <= d <= 31 /\ monthShort m ≠ ""%string
       /\ formattedDate entry = (monthShort m ++ " " ++ numeral d)%string.
Proof.
  intros Hin.
  pose proof (chartData_formattedDate _ _ _ _ Hin) as Hlabel.
  rewrite formatDate_shift in Hlabel.
  split; [done|]. split; [|split].
  - intros Htz. rewrite Hlabel. f_equal.
    assert (tz / JSDate.msPerDay = -1); [|lia].
    unfold JSDate.msPerDay in *. symmetry.
    apply (Z.div_unique_pos tz 86400000 (-1) (tz + 86400000)); lia.
  - intros Htz. rewrite Hlabel. f_equal.
    rewrite Z.div_small by done. lia.
  - destruct (civil_month_day (date entry + tz / JSDate.msPerDay))
      as (y & m & d & Hc & Hm & Hd).
    exists y, m, d. split; [done|]. split; [done|]. split; [done|].
    split; [by apply monthShort_named|].
    rewrite Hlabel. unfold formatDate, monthAndDay, JSDate.localDay.
    rewrite Z.add_0_r, Z.div_mul by done. by rewrite Hc.
Qed.

(** ** Guards of the sync *)

(** X4 (guards).  Until the client library is loaded the handler does
    nothing; loaded but signed out, it starts the sign-in and nothing else.
    In both cases the state is left as it is, no notice is shown, and the
    answers of the calendar service play no part.  The handler gets past
    the guards after the client is initialised signed in, or once the
    sign-in listener reports a user. *)
Theorem sync_needs_client_and_user (gapi gapi' : Gapi) (s : AppState)
    (isSignedIn : bool) :
  (gapiLoaded s = false -> handleSync gapi s = (s, []))
  /\ (gapiLoaded s = true -> user s = None -> handleSync gapi s = (s, [SignIn]))
  /\ (¬ syncStarts s -> handleSync gapi s = handleSync gapi' s)
  /\ handleSync gapi (onClientInit false s) = (onClientInit false s, [SignIn])
  /\ handleSync gapi (onSignedInChange false (onClientInit isSignedIn s))
     = (onSignedInChange false (onClientInit isSignedIn s), [SignIn])
  /\ syncStarts (onClientInit true s)
  /\ syncStarts (onSignedInChange true (onClientInit isSignedIn s)).
Proof.
  split; [|split; [|split; [|split; [|split; [|split]]]]].
  - unfold handleSync. by intros ->.
  - unfold handleSync. by intros -> ->.
  - unfold syncStarts, handleSync. intros Hns.
    destruct (gapiLoaded s); [|done]. simpl.
    destruct (user s); [|done]. exfalso. apply Hns. eauto.
  - done.
  - done.
  - split; [done | by eexists].
  - split; [done | by eexists].
Qed.

(** ** More on the merge *)

Lemma elem_of_newSessions n items :
  n ∈ newSessions items <-> ∃ e, e ∈ items /\ eventToSession e = Some n.
Proof.
  unfold newSessions, filterBoolean. rewrite list_elem_of_omap. split.
  - intros (o & Ho & Heq). simpl in Heq. subst o.
    apply list_elem_of_fmap in Ho as (e & Heq & He). eauto.
  - intros (e & He & Heq). exists (Some n). split; [|done].
    apply list_elem_of_fmap. eauto.
Qed.

Lemma eventToSession_Some e n :
  eventToSession e = Some n ->
  source n = google /\ id n = ev_id e
  /\ dateTime (ev_start e) = Some (start n) /\ is_Some (dateTime (ev_end e)).
Proof.
  unfold eventToSession.
  destruct (dateTime (ev_start e)) as [t0|]; [|done].
  destruct (dateTime (ev_end e)) as [t1|]; [|done].
  intros [= <-]. simpl. eauto.
Qed.

Lemma elem_of_mergeSessions n fetched prev :
  n ∈ mergeSessions fetched prev
  <-> n ∈ prev \/ (n ∈ fetched /\ ¬ matchesExisting prev n).
Proof.
  rewrite mergeSessions_Permutation, elem_of_app, list_elem_of_filter. tauto.
Qed.

Lemma handleSync_sessions gapi s :
  sessions (fst (handleSync gapi s)) = sessions s
  \/ ∃ items, fetchSucceeds gapi items
       /\ sessions (fst (handleSync gapi s))
          = mergeSessions (newSessions items) (sessions s).
Proof.
  destruct (decide (syncStarts s)) as [Hs|Hs].
  - destruct (sync_outcomes gapi) as [Hf | [Hm | [items Hok]]].
    + left. by destruct (handleSync_fetchFails gapi s Hs Hf) as [error ->].
    + left. by rewrite (handleSync_calendarMissing gapi s Hs Hm).
    + right. exists items. split; [done|].
      by rewrite (handleSync_fetchSucceeds gapi s items Hs Hok).
  - left. by destruct (handleSync_not_started gapi s Hs) as [-> _].
Qed.

(** X5 (nothing is lost).  Whatever the service answers, every session the
    collection held before a sync it holds after it, as many times; and a
    session it holds after the sync is one it held before, or was built from
    a fetched event that has both its date-times, carries the identifier of
    that event and the google tag, and starts when no earlier session did. *)
Theorem sync_keeps_every_session (gapi : Gapi) (s : AppState) :
  sessions s ⊆+ sessions (fst (handleSync gapi s))
  /\ ∀ n, n ∈ sessions (fst (handleSync gapi s)) ->
       n ∈ sessions s
       \/ (source n = google /\ ¬ matchesExisting (sessions s) n
           /\ ∃ items e, fetchSucceeds gapi items /\ e ∈ items
                /\ eventToSession e = Some n /\ id n = ev_id e
                /\ ¬ lacksTime e).
Proof.
  destruct (handleSync_sessions gapi s) as [-> | (items & Hok & ->)].
  - split; [done | by left].
  - split.
    + rewrite mergeSessions_Permutation. by apply submseteq_inserts_r.
    + intros n Hn. apply elem_of_mergeSessions in Hn as [Hn | [Hn Hfresh]];
        [by left | right].
      apply elem_of_newSessions in Hn as (e & He & Hev).
      destruct (eventToSession_Some e n Hev) as (Hsrc & Hid & Hst & [t1 Hen]).
      split; [done|]. split; [done|]. exists items, e.
      repeat split; try done.
      unfold lacksTime. rewrite Hst, Hen. by intros [?|?].
Qed.

Lemma filter_none {A} (P : A -> Prop) `{!∀ x, Decision (P x)} (l : list A) :
  (∀ x, x ∈ l -> ¬ P x) -> filter P l = [].
Proof.
  induction l as [|x l IH]; intros Hall; [done|].
  rewrite filter_cons_False by (apply Hall; by left).
  apply IH. intros y Hy. apply Hall. by right.
Qed.

Lemma insertByStart_head s l :
  Forall (startLe s) l -> insertByStart s l = s :: l.
Proof.
  destruct l as [|x l]; [done|]. intros Hall. simpl.
  apply Forall_cons in Hall as [Hx _]. unfold startLe in Hx.
  by destruct (Z.leb_spec (start s) (start x)); [|lia].
Qed.

(** A collection in order is left as it is by the sort. *)
Lemma sortByStart_sorted l : StronglySorted startLe l -> sortByStart l = l.
Proof.
  induction 1 as [|x l _ IH Hx]; simpl; [done|].
  rewrite IH. by apply insertByStart_head.
Qed.

Lemma mergeSessions_again fetched prev :
  mergeSessions fetched (mergeSessions fetched prev)
  = mergeSessions fetched prev.
Proof.
  unfold mergeSessions at 1.
  rewrite (filter_none _ fetched).
  - rewrite app_nil_r. apply sortByStart_sorted, sortByStart_StronglySorted.
  - intros n Hn Hnot. apply Hnot.
    rewrite elem_of_list_to_set.
    destruct (decide (matchesExisting prev n)) as [Hm|Hm].
    + apply matchesExisting_elem_of in Hm.
      apply list_elem_of_fmap in Hm as (p & Heq & Hp).
      apply list_elem_of_fmap. exists p. split; [done|].
      apply elem_of_mergeSessions. by left.
    + apply list_elem_of_fmap. exists n. split; [done|].
      apply elem_of_mergeSessions. by right.
Qed.

(** X6 (a sync repeated).  Run again on the state it left, with the service
    answering as before, the handler leaves that state as it is, the
    collection record for record in the same order: no session is added a
    second time. *)
Theorem sync_twice_is_sync_once (gapi : Gapi) (s : AppState) :
  fst (handleSync gapi (fst (handleSync gapi s))) = fst (handleSync gapi s)
  /\ ∀ fetched prev,
       mergeSessions fetched (mergeSessions fetched prev)
       = mergeSessions fetched prev.
Proof.
  split; [|apply mergeSessions_again].
  destruct (decide (syncStarts s)) as [Hs|Hs].
  - destruct (sync_outcomes gapi) as [Hf | [Hm | [items Hok]]].
    + destruct (handleSync_fetchFails gapi s Hs Hf) as [error ->]. simpl.
      set (s' := setIsSyncing false (setIsSyncing true s)).
      by destruct (handleSync_fetchFails gapi s' Hs Hf) as [error' ->].
    + rewrite (handleSync_calendarMissing gapi s Hs Hm). simpl.
      set (s' := setIsSyncing false (setIsSyncing false (setIsSyncing true s))).
      by rewrite (handleSync_calendarMissing gapi s' Hs Hm).
    + rewrite (handleSync_fetchSucceeds gapi s items Hs Hok). simpl.
      set (s' := setIsSyncing false (setSessions _ (setIsSyncing true s))).
      rewrite (handleSync_fetchSucceeds gapi s' items Hs Hok). simpl.
      unfold s', setIsSyncing, setSessions. simpl.
      by rewrite mergeSessions_again.
  - destruct (handleSync_not_started gapi s Hs) as [Heq _].
    by rewrite Heq, Heq.
Qed.

(** X7 (the batch is not searched for duplicates).  The merge adds as many
    records as were fetched with a start time that no existing record has:
    two fetched records that start at the same new time are both added.
    Records that start at the same time keep their order, the existing ones
    first and then the added ones, each group as it was. *)
Theorem merge_adds_every_fresh_record (fetched prev : list Session)
    (n1 n2 : Session) (t : Z) :
  length (mergeSessions fetched prev)
  = (length prev
     + length (filter (fun n => ¬ matchesExisting prev n) fetched))%nat
  /\ (start n1 = start n2 -> ¬ matchesExisting prev n1 ->
      length (mergeSessions [n1; n2] prev) = S (S (length prev))
      /\ filter (fun x => start x = start n1) (mergeSessions [n1; n2] prev)
         = [n1; n2])
  /\ filter (fun x => start x = t) (mergeSessions fetched prev)
     = filter (fun x => start x = t) prev
       ++ filter (fun x => start x = t)
            (filter (fun n => ¬ matchesExisting prev n) fetched).
Proof.
  assert (∀ fetched,
    filter (fun x => start x = t) (mergeSessions fetched prev)
    = filter (fun x => start x = t) prev
      ++ filter (fun x => start x = t)
           (filter (fun n => ¬ matchesExisting prev n) fetched)) as Hstable.
  { intros f. unfold mergeSessions.
    rewrite sortByStart_stable, filter_app. do 2 f_equal.
    apply list_filter_iff. intros n.
    by rewrite matchesExisting_elem_of, elem_of_list_to_set. }
  split; [|split; [|apply Hstable]].
  - by rewrite mergeSessions_Permutation, length_app.
  - intros Heq Hfresh.
    assert (¬ matchesExisting prev n2) as Hfresh2.
    { unfold matchesExisting in *. by rewrite <- Heq. }
    assert (filter (fun n => ¬ matchesExisting prev n) [n1; n2] = [n1; n2])
      as Hkept.
    { rewrite filter_cons_True by done. rewrite filter_cons_True by done.
      done. }
    split.
    + rewrite mergeSessions_Permutation, Hkept, length_app. simpl. lia.
    + clear Hstable. unfold mergeSessions.
      rewrite sortByStart_stable, filter_app.
      rewrite (list_filter_iff _ (fun n => ¬ matchesExisting prev n) [n1; n2])
        by (intros n; by rewrite matchesExisting_elem_of, elem_of_list_to_set).
      rewrite Hkept.
      rewrite (filter_none _ prev).
      * rewrite filter_cons_True by done.
        rewrite filter_cons_True by done. done.
      * intros p Hp Hst. apply Hfresh. unfold matchesExisting.
        apply Exists_exists. eauto.
Qed.

(** ** The calendar that is read *)

Lemma lowerChar_idemp c : lowerChar (lowerChar c) = lowerChar c.
Proof.
  destruct c as [[] [] [] [] [] [] [] []]; vm_compute; reflexivity.
Qed.

Lemma toLowerCase_idemp s : toLowerCase (toLowerCase s) = toLowerCase s.
Proof.
  induction s as [|c s IH]; simpl; [done|].
  by rewrite lowerChar_idemp, IH.
Qed.

Lemma find_first {A} (f : A -> bool) (before after : list A) (c : A) :
  Forall (fun x => f x = false) before -> f c = true ->
  List.find f (before ++ c :: after) = Some c.
Proof.
  induction 1 as [|x before Hx _ IH]; intros Hc; simpl.
  - by rewrite Hc.
  - rewrite Hx. by apply IH.
Qed.

(** X8 (which calendar).  A calendar is the target when its name reads
    ATracker whatever the case of its letters.  Of several such calendars
    the first in the list is the one whose events are fetched: the handler
    does what it would do were that calendar the only one listed. *)
Theorem first_matching_calendar_is_read
    (before after : list CalendarEntry) (c : CalendarEntry)
    (events : string -> Response (list Event)) (s : AppState) :
  Forall (fun x => isTargetCalendar x = false) before ->
  isTargetCalendar c = true ->
  handleSync (mkGapi (Resolved (before ++ c :: after)) events) s
  = handleSync (mkGapi (Resolved [c]) events) s
  /\ (∀ x, isTargetCalendar x = true
           <-> toLowerCase (summary x) = "atracker"%string)
  /\ (∀ i name, isTargetCalendar (mkCalendar i (toLowerCase name))
               = isTargetCalendar (mkCalendar i name)).
Proof.
  intros Hbefore Hc. split; [|split].
  - unfold handleSync, tryBlock. simpl.
    rewrite (find_first _ _ _ _ Hbefore Hc). by rewrite Hc.
  - intros x. unfold isTargetCalendar. by rewrite String.eqb_eq.
  - intros i name. unfold isTargetCalendar. simpl.
    by rewrite toLowerCase_idemp.
Qed.

(** ** More on the day series *)

(** X9 (the total of a day).  The total of an entry is the sum of the
    durations of the sessions that start on the entry's date, in UTC; a
    session that starts on a date without an entry is in no total. *)
Theorem day_total_is_the_play_of_its_date (tz now : Z) (l : list Session)
    (entry : DayEntry) :
  entry ∈ chartData tz now l ->
  (dailyPlay entry
   == Qsum (map duration
              (filter (fun s => JSDate.isoDay (start s) = date entry) l)))%Q
  /\ ∀ s, s ∈ l ->
       JSDate.isoDay (start s) ∉ map date (chartData tz now l) ->
       ∀ entry', entry' ∈ chartData tz now l ->
         s ∉ filter (fun s => JSDate.isoDay (start s) = date entry') l.
Proof.
  intros Hin. split; [by apply (chartData_dailyPlay tz now)|].
  intros s Hs Hout entry' Hin' Hfilter.
  apply list_elem_of_filter in Hfilter as [Hday _].
  apply Hout. rewrite Hday. apply list_elem_of_fmap. eauto.
Qed.

Lemma Qsum_app l1 l2 : (Qsum (l1 ++ l2) == Qsum l1 + Qsum l2)%Q.
Proof. induction l1 as [|x l1 IH]; simpl; [ring|]. rewrite IH. ring. Qed.

Lemma inject_Z_S (k : nat) :
  (inject_Z (Z.of_nat (S k)) == inject_Z (Z.of_nat k) + 1)%Q.
Proof. rewrite Nat2Z.inj_succ. unfold Z.succ. by rewrite inject_Z_plus. Qed.

Lemma inject_Z_nat_nonneg (k : nat) : (0 <= inject_Z (Z.of_nat k))%Q.
Proof. change 0%Q with (inject_Z 0). rewrite <- Zle_Qle. lia. Qed.

(** X10 (how a day moves the average).  From one entry to the next the average
    moves towards the total of the new day by one part in the number of days
    counted so far: a day below the running average lowers it, a day above
    it raises it, a day equal to it leaves it. *)
Theorem average_moves_towards_the_day (tz now : Z) (l : list Session)
    (k : nat) (a b : DayEntry) :
  chartData tz now l !! k = Some a ->
  chartData tz now l !! S k = Some b ->
  (average b
   == average a + (dailyPlay b - average a) / inject_Z (Z.of_nat (S (S k))))%Q
  /\ ((dailyPlay b < average a)%Q -> (average b < average a)%Q)
  /\ ((average a < dailyPlay b)%Q -> (average a < average b)%Q)
  /\ ((dailyPlay b == average a)%Q -> (average b == average a)%Q).
Proof.
  intros Ha Hb.
  pose proof (chartData_average _ _ _ _ _ Ha) as HA.
  pose proof (chartData_average _ _ _ _ _ Hb) as HB.
  rewrite (take_S_r _ _ _ Hb), map_app, Qsum_app in HB. simpl in HB.
  set (S1 := Qsum (map dailyPlay (take (S k) (chartData tz now l)))) in *.
  rewrite inject_Z_S in HB. 
  set (q := inject_Z (Z.of_nat (S k))) in *.
  assert (0 < q)%Q as Hq.
  { unfold q. change 0%Q with (inject_Z 0). rewrite <- Zlt_Qlt. lia. }
  assert (average b
   == average a + (dailyPlay b - average a) / inject_Z (Z.of_nat (S (S k))))%Q
    as Hstep.
  { rewrite (inject_Z_S (S k)). fold q. rewrite HB, HA. field. lra. }
  split; [done|].
  assert (0 < / (q + 1))%Q as Hinv by (apply Qinv_lt_0_compat; lra).
  rewrite (inject_Z_S (S k)) in Hstep. fold q in Hstep.
  unfold Qdiv in Hstep.
  set (d := (dailyPlay b - average a)%Q) in *.
  split; [|split].
  - intros Hlt. assert (d < 0)%Q as Hd by (unfold d; lra).
    pose proof (Qmult_lt_compat_r _ _ _ Hinv Hd) as Hm.
    rewrite Qmult_0_l in Hm. lra.
  - intros Hlt. assert (0 < d)%Q as Hd by (unfold d; lra).
    pose proof (Qmult_lt_compat_r _ _ _ Hinv Hd) as Hm.
    rewrite Qmult_0_l in Hm. lra.
  - intros Heq. assert (d == 0)%Q as Hd by (unfold d; lra).
    rewrite Hstep, Hd. ring.
Qed.

Lemma Qsum_nonneg l : Forall (fun x => 0 <= x)%Q l -> (0 <= Qsum l)%Q.
Proof.
  induction 1 as [|x l Hx _ IH]; simpl; [done|]. lra.
Qed.

(** X11 (no negative figure).  When no session has a negative duration, no
    entry has a negative total or a negative average. *)
Theorem averages_not_negative (tz now : Z) (l : list Session)
    (entry : DayEntry) :
  Forall (fun s => 0 <= duration s)%Q l ->
  entry ∈ chartData tz now l ->
  (0 <= dailyPlay entry)%Q /\ (0 <= average entry)%Q.
Proof.
  intros Hdur Hin.
  assert (∀ e, e ∈ chartData tz now l -> (0 <= dailyPlay e)%Q) as Hday.
  { intros e He. rewrite (chartData_dailyPlay _ _ _ _ He).
    unfold playOn, sessionsOn. apply Qsum_nonneg.
    apply Forall_fmap, Forall_forall. intros s Hs. simpl.
    apply list_elem_of_filter in Hs as [_ Hs].
    rewrite Forall_forall in Hdur. by apply Hdur. }
  split; [by apply Hday|].
  apply list_elem_of_lookup in Hin as [k Hk].
  rewrite (chartData_average _ _ _ _ _ Hk).
  apply Qle_shift_div_l.
  - change 0%Q with (inject_Z 0). rewrite <- Zlt_Qlt. lia.
  - rewrite Qmult_0_l. apply Qsum_nonneg.
    apply Forall_fmap, Forall_forall. intros e He. simpl.
    apply Hday. apply elem_of_take in He as (i & Hi & _).
    apply list_elem_of_lookup. eauto.
Qed.

Lemma isoDay_mono t1 t2 : t1 <= t2 -> JSDate.isoDay t1 <= JSDate.isoDay t2.
Proof. intros Hle. unfold JSDate.isoDay. by apply Z.div_le_mono. Qed.


(** X12 (in UTC nothing is left out).  In UTC, when no session starts on a day
    after today, every session is counted on the day it starts: the totals
    of the days add up to the durations of all the sessions, and the last
    average is that sum over the number of days from the first session to
    today. *)
Theorem utc_counts_every_session (now : Z) (l : list Session) (e : Session) :
  earliest e l ->
  (∀ s, s ∈ l -> JSDate.isoDay (start s) <= JSDate.isoDay now) ->
  (∀ s, s ∈ l -> JSDate.isoDay (start s) ∈ map date (chartData 0 now l))
  /\ (Qsum (map dailyPlay (chartData 0 now l)) == Qsum (map duration l))%Q
  /\ ∃ final, last (chartData 0 now l) = Some final
       /\ (average final
           == Qsum (map duration l)
              / inject_Z (JSDate.isoDay now - JSDate.isoDay (start e) + 1))%Q.
Proof.
  intros He Hpast.
  pose proof (chartData_dates 0 now l e He) as Hdates.
  rewrite firstDay_utc in Hdates. unfold daysThrough in Hdates.
  rewrite !localDay_utc in Hdates.
  assert (JSDate.isoDay (start e) <= JSDate.isoDay now) as Hle
    by (apply Hpast, He).
  assert (∀ s, s ∈ l -> JSDate.isoDay (start s) ∈ map date (chartData 0 now l))
    as Hin.
  { intros s Hs. rewrite Hdates. apply elem_of_seqZ.
    destruct He as [_ Hmin]. pose proof (isoDay_mono _ _ (Hmin s Hs)).
    pose proof (Hpast s Hs). lia. }
  split; [done|]. split; [by apply chartData_total|].
  assert (Z.of_nat (length (chartData 0 now l))
          = JSDate.isoDay now - JSDate.isoDay (start e) + 1) as Hlen.
  { rewrite <- (length_map date), Hdates, length_seqZ. lia. }
  destruct (last (chartData 0 now l)) as [final|] eqn:Hlast.
  - exists final. split; [done|].
    pose proof (chartData_average 0 now l) as Havg.
    rewrite last_lookup in Hlast.
    rewrite (Havg _ _ Hlast).
    replace (S (pred (length (chartData 0 now l))))
      with (length (chartData 0 now l)) by lia.
    by rewrite firstn_all, Hlen, (chartData_total _ _ _ Hin).
  - apply last_None in Hlast. rewrite Hlast in Hlen. simpl in Hlen. lia.
Qed.



Lemma Qsum_Forall2 l1 l2 : Forall2 Qeq l1 l2 -> (Qsum l1 == Qsum l2)%Q.
Proof.
  induction 1 as [|x y l1 l2 Hxy _ IH]; simpl; [done|]. by rewrite Hxy, IH.
Qed.

Lemma earliest_Permutation e l1 l2 : l1 ≡ₚ l2 -> earliest e l1 -> earliest e l2.
Proof.
  intros Hp [Hin Hmin]. split; [by rewrite <- Hp|].
  intros s Hs. apply Hmin. by rewrite Hp.
Qed.

(** X14 (order of the collection).  The series does not depend on the order
    in which the collection holds its sessions: two collections with the
    same sessions give entries with the same dates and labels and with
    totals and averages of the same value. *)
Theorem series_ignores_the_order (tz now : Z) (l1 l2 : list Session) :
  l1 ≡ₚ l2 ->
  Forall2 sameEntry (chartData tz now l1) (chartData tz now l2).
Proof.
  intros Hp.
  destruct l1 as [|s0 l0] eqn:Hl1.
  { apply Permutation_nil in Hp. subst l2. constructor. }
  rewrite <- Hl1 in *. assert (l1 ≠ []) as Hne by by rewrite Hl1.
  destruct (sortByStart_nonempty l1 Hne) as (e & rest & Hs).
  pose proof (sortByStart_head _ _ _ Hs) as He1.
  pose proof (earliest_Permutation _ _ _ Hp He1) as He2.
  pose proof (chartData_dates tz now l1 e He1) as Hd1.
  pose proof (chartData_dates tz now l2 e He2) as Hd2.
  assert (length (chartData tz now l1) = length (chartData tz now l2)) as Hlen.
  { by rewrite <- (length_map date), Hd1, <- Hd2, length_map. }
  assert (Forall2 (fun a b => date a = date b /\ (dailyPlay a == dailyPlay b)%Q)
            (chartData tz now l1) (chartData tz now l2)) as Hday.
  { apply Forall2_same_length_lookup_2; [done|]. intros i a b Ha Hb.
    assert (date a = date b) as Hdate.
    { pose proof (chartData_lookup_date _ _ _ _ _ _ He1 Ha).
      pose proof (chartData_lookup_date _ _ _ _ _ _ He2 Hb). congruence. }
    split; [done|].
    rewrite (chartData_dailyPlay tz now l1 a), (chartData_dailyPlay tz now l2 b)
      by (apply list_elem_of_lookup; eauto).
    rewrite Hdate. by apply playOn_Permutation. }
  apply Forall2_same_length_lookup_2; [done|]. intros i a b Ha Hb.
  destruct (Forall2_lookup_lr _ _ _ _ _ _ Hday Ha Hb) as [Hdate Hplay].
  split; [done|]. split; [|split; [done|]].
  - rewrite (chartData_formattedDate tz now l1 a),
      (chartData_formattedDate tz now l2 b)
      by (apply list_elem_of_lookup; eauto).
    by rewrite Hdate.
  - rewrite (chartData_average _ _ _ _ _ Ha), (chartData_average _ _ _ _ _ Hb).
    rewrite (Qsum_Forall2
               (map dailyPlay (take (S i) (chartData tz now l1)))
               (map dailyPlay (take (S i) (chartData tz now l2)))); [done|].
    apply Forall2_fmap, Forall2_take.
    eapply Forall2_impl; [exact Hday|]. by intros x y [_ Hxy].
Qed.

(** ** The series as the days pass *)

Lemma DayMap_get_app k (m1 m2 : DayMap.t) :
  DayMap.get k (m1 ++ m2)
  = match DayMap.get k m1 with
    | Some v => Some v
    | None => DayMap.get k m2
    end.
Proof.
  induction m1 as [|[k' v'] m1 IH]; simpl; [done|].
  by destruct (k =? k').
Qed.

Lemma DayMap_set_app k v (m1 m2 : DayMap.t) :
  DayMap.set k v (m1 ++ m2)
  = if DayMap.has k m1 then DayMap.set k v m1 ++ m2
    else m1 ++ DayMap.set k v m2.
Proof.
  unfold DayMap.has.
  induction m1 as [|[k' v'] m1 IH]; simpl; [done|].
  destruct (k =? k'); [done|]. rewrite IH.
  by destruct (DayMap.get k m1).
Qed.

Lemma addPlay_untouched (m : DayMap.t) s :
  JSDate.isoDay (start s) ∉ map fst m -> addPlay m s = m.
Proof.
  intros Hout. unfold addPlay.
  destruct (DayMap.has _ m) eqn:Hhas; [|done].
  apply DayMap_has_true in Hhas. done.
Qed.

Lemma addPlay_app (m1 m2 : DayMap.t) s :
  (∀ k, k ∈ map fst m1 -> k ∉ map fst m2) ->
  addPlay (m1 ++ m2) s = addPlay m1 s ++ addPlay m2 s.
Proof.
  intros Hdisj.
  destruct (DayMap.has (JSDate.isoDay (start s)) m1) eqn:Hhas1.
  - assert (JSDate.isoDay (start s) ∉ map fst m2) as Hout
      by by apply Hdisj, DayMap_has_true.
    rewrite (addPlay_untouched m2 s Hout).
    unfold addPlay, DayMap.has in *.
    rewrite DayMap_get_app, DayMap_set_app. unfold DayMap.has.
    by destruct (DayMap.get (JSDate.isoDay (start s)) m1).
  - rewrite (addPlay_untouched m1 s).
    2:{ intros Hin. apply DayMap_has_true in Hin. congruence. }
    unfold addPlay, DayMap.has in *.
    rewrite DayMap_get_app, DayMap_set_app. unfold DayMap.has.
    destruct (DayMap.get (JSDate.isoDay (start s)) m1); [done|].
    by destruct (DayMap.get (JSDate.isoDay (start s)) m2).
Qed.

Lemma fold_addPlay_app l (m1 m2 : DayMap.t) :
  (∀ k, k ∈ map fst m1 -> k ∉ map fst m2) ->
  fold_left addPlay l (m1 ++ m2)
  = fold_left addPlay l m1 ++ fold_left addPlay l m2.
Proof.
  revert m1 m2. induction l as [|s l IH]; intros m1 m2 Hdisj; simpl; [done|].
  rewrite addPlay_app by done. apply IH.
  intros k. rewrite !addPlay_keys. apply Hdisj.
Qed.

Lemma dataPoints_app tz c n (m1 m2 : DayMap.t) :
  ∃ c' n', dataPoints tz c n (m1 ++ m2)
           = dataPoints tz c n m1 ++ dataPoints tz c' n' m2.
Proof.
  revert c n. induction m1 as [|[d v] m1 IH]; intros c n; simpl.
  - by exists c, n.
  - destruct (IH (c + v)%Q (n + 1)) as (c' & n' & ->). by exists c', n'.
Qed.

Lemma zeroDays_app d (n k : nat) :
  zeroDays d (n + k) = zeroDays d n ++ zeroDays (d + Z.of_nat n) k.
Proof.
  unfold zeroDays. rewrite Nat2Z.inj_add, seqZ_app by lia.
  by rewrite map_app.
Qed.

Lemma localDay_mono tz t1 t2 :
  t1 <= t2 -> JSDate.localDay tz t1 <= JSDate.localDay tz t2.
Proof. intros Hle. unfold JSDate.localDay. apply Z.div_le_mono; [done|lia]. Qed.

(** X15 (the past stays).  As the clock moves on, the entries the series had
    stay as they were, value for value, and the entries of the new days come
    after them. *)
Theorem series_grows_at_the_end (tz now now' : Z) (l : list Session) :
  now <= now' ->
  chartData tz now l `prefix_of` chartData tz now' l.
Proof.
  intros Hnow. unfold chartData.
  destruct l as [|s0 l0] eqn:Hl; [done|]. rewrite <- Hl.
  assert (l ≠ []) as Hne by by rewrite Hl.
  replace (length l =? 0)%nat with false by by rewrite Hl.
  destruct (sortByStart_nonempty l Hne) as (first & rest & Hs).
  rewrite !(filledDayMap_sorted _ _ _ _ _ Hs).
  set (d0 := firstDay tz (start first)).
  set (n := Z.to_nat (daysThrough tz (start first) now)).
  set (n' := Z.to_nat (daysThrough tz (start first) now')).
  assert (n <= n')%nat as Hn.
  { unfold n, n', daysThrough.
    pose proof (localDay_mono tz now now' Hnow). lia. }
  replace n' with (n + (n' - n))%nat by lia.
  rewrite zeroDays_app, fold_addPlay_app.
  - destruct (dataPoints_app tz 0 0
                (fold_left addPlay (first :: rest) (zeroDays d0 n))
                (fold_left addPlay (first :: rest)
                   (zeroDays (d0 + Z.of_nat n) (n' - n))))
      as (c' & k' & ->).
    by apply prefix_app_r.
  - intros k. rewrite !zeroDays_keys, !elem_of_seqZ. lia.
Qed.

(** ** More on the range filter *)







Lemma filteredData_filter now tab N series :
  (tab, N) ∈ lookbackWindows ->
  filteredData now tab series
  = filter (fun d => JSDate.isoDay now - N <= date d) series.
Proof.
  intros Hw.
  assert (tab ≠ MAX /\ daysToSubtract tab = N) as [Hmax <-].
  { unfold lookbackWindows in Hw.
    repeat (apply elem_of_cons in Hw as [[= -> ->]|Hw]; [done|]).
    by apply elem_of_nil in Hw. }
  unfold filteredData.
  destruct series as [|d series]; [by destruct tab|].
  cbn [length Nat.eqb]. rewrite isoDay_addDays.
  destruct tab; try done;
    apply List_filter_filter; intros x; rewrite Z.leb_le; simpl; lia.
Qed.

(** X18 (windows nest).  A shorter window shows entries that the longer one
    shows too, in the same order, and MAX shows them all; filtering by the
    shorter window what the longer one shows gives what the shorter one
    shows of the whole series. *)
Theorem shorter_window_shows_less (now : Z) (series : list DayEntry)
    (t1 t2 : Tab) (N1 N2 : Z) :
  (t1, N1) ∈ lookbackWindows -> (t2, N2) ∈ lookbackWindows -> N1 <= N2 ->
  filteredData now t1 series `sublist_of` filteredData now t2 series
  /\ filteredData now t2 series `sublist_of` filteredData now MAX series
  /\ filteredData now t1 (filteredData now t2 series)
     = filteredData now t1 series.
Proof.
  intros H1 H2 Hle.
  assert (filteredData now t1 (filteredData now t2 series)
          = filteredData now t1 series) as Hnest.
  { rewrite (filteredData_filter _ _ _ _ H1), (filteredData_filter _ _ _ _ H2).
    rewrite (filteredData_filter _ _ _ _ H1), list_filter_filter.
    apply list_filter_iff. intros d. lia. }
  split; [|split; [|done]].
  - rewrite <- Hnest, (filteredData_filter _ _ _ _ H1). apply sublist_filter.
  - rewrite (filteredData_filter _ _ _ _ H2).
    replace (filteredData now MAX series) with series
      by (unfold filteredData; by destruct series).
    apply sublist_filter.
Qed.

(** ** More on the header *)

Lemma toFixed0_zero x : (x == 0)%Q -> toFixed0 x = "0"%string.
Proof. intros Hx. by rewrite (toFixed0_Qeq x 0). Qed.

(** X19 (no movement reads as a gain).  When the filtered series is empty, or
    its first and last averages are equal as they are when it has one entry
    only, the trend is positive: green, arrow up, with a difference of 0
    seconds.  With no session at all and no point hovered the header reads
    Today, 0m 0s, in green. *)
Theorem flat_trend_is_positive (tz now : Z) (tab : Tab) (fd : list DayEntry)
    (s : AppState) :
  (fd = [] \/ (∃ a, fd = [a])
   \/ ∃ a b, head fd = Some a /\ last fd = Some b
        /\ (average a == average b)%Q) ->
  (isProfit fd = true /\ color fd = green
   /\ deltaPill None tab fd
      = Some (mkDeltaPill "text-green-400" ArrowUpRight
                ("0s " ++ tabLabel tab)%string))
  /\ (sessions s = [] -> hoverData s = None ->
      header tz now s
      = mkHeader "Today" "text-green-500" "0m 0s"
          (Some (mkDeltaPill "text-green-400" ArrowUpRight
                   ("0s " ++ tabLabel (activeTab s))%string))).
Proof.
  intros Hflat. split.
  - assert ((startPrice fd == currentPrice fd)%Q) as Heq.
    { destruct Hflat as [-> | [[a ->] | (a & b & Ha & Hb & Hab)]];
        [done|done|].
      by rewrite (startPrice_head _ _ Ha), (currentPrice_last _ _ Hb). }
    assert (isProfit fd = true) as Hp.
    { unfold isProfit. apply Qle_bool_iff. rewrite Heq. apply Qle_refl. }
    unfold color, deltaPill. rewrite Hp. repeat split.
    do 2 f_equal. rewrite toFixed0_zero; [done|].
    assert (currentPrice fd - startPrice fd == 0)%Q as H0
      by (rewrite Heq; ring).
    by rewrite H0.
  - intros Hs Hh. unfold header. rewrite Hs, Hh. simpl.
    by destruct (activeTab s).
Qed.

(** X20 (hovering).  While a point is hovered the header shows the label and
    the average of that point, in white and without the pill, whatever the
    sessions and the range; the line keeps the colour of the trend.  Moving
    over a point and leaving the chart puts the header back as it was. *)
Theorem hovering_shows_the_point (tz now : Z) (s : AppState)
    (point : DayEntry) :
  header tz now (onMouseMove (Some point) s)
  = mkHeader (formattedDate point) "text-white"
      (formatDuration (average point)) None
  /\ onMouseMove None s = s
  /\ (hoverData s = None ->
      onMouseLeave (onMouseMove (Some point) s) = s
      /\ header tz now (onMouseLeave (onMouseMove (Some point) s))
         = header tz now s)
  /\ sessions (onMouseMove (Some point) s) = sessions s
  /\ activeTab (onMouseMove (Some point) s) = activeTab s.
Proof.
  split; [done|]. split; [done|]. split; [|done].
  intros Hh.
  assert (onMouseLeave (onMouseMove (Some point) s) = s) as Hback.
  { destruct s. simpl in Hh. subst. done. }
  by rewrite Hback.
Qed.

(** ** The further properties at work *)

Lemma formatDuration_parts_witness :
  (0 <= 239 # 2)%Q
  /\ durationParts (239 # 2) = (0, 1, 60)
  /\ (- (1 # 2) < inject_Z (3600 * 0 + 60 * 1 + 60) - (239 # 2))%Q
  /\ formatDuration (239 # 2) = "1m 60s"%string.
Proof.
  assert (0 <= 239 # 2)%Q as Hx by (unfold Qle; simpl; lia).
  assert (durationParts (239 # 2) = (0, 1, 60)) as Hparts by reflexivity.
  pose proof (formatDuration_parts (239 # 2) 0 1 60 Hx Hparts)
    as (_ & _ & _ & Hlow & _ & _ & Htext).
  split; [exact Hx|]. split; [exact Hparts|]. split; [exact Hlow|exact Htext].
Defined.

Lemma formatDuration_whole_seconds_witness :
  0 <= 3725
  /\ durationParts (inject_Z 3725) = (1, 2, 5)
  /\ formatDuration (inject_Z 3725) = "1h 2m 5s"%string.
Proof.
  assert (0 <= 3725) as Hn by lia.
  pose proof (formatDuration_whole_seconds 3725 Hn) as (Hparts & _ & _ & _ & Htext).
  split; [exact Hn|]. split; [exact Hparts | exact Htext].
Defined.

Lemma scenarioSecondEntry_in_series :
  scenarioSecondEntry ∈ chartData 0 scenarioNow scenarioSessions.
Proof. apply list_elem_of_lookup. by exists 1%nat. Qed.

Lemma chart_labels_witness :
  scenarioSecondEntry ∈ chartData 0 scenarioNow scenarioSessions
  /\ formattedDate scenarioSecondEntry
     = formatDate 0 (date scenarioSecondEntry + 0 / JSDate.msPerDay).
Proof.
  split; [exact scenarioSecondEntry_in_series|].
  exact (proj1 (chart_labels 0 scenarioNow scenarioSessions
                  scenarioSecondEntry scenarioSecondEntry_in_series)).
Defined.

Lemma first_matching_calendar_is_read_witness :
  Forall (fun x => isTargetCalendar x = false) [mkCalendar "cal0" "Work"]
  /\ isTargetCalendar trackerCalendar = true
  /\ handleSync onlineGapi signedIn
     = handleSync (mkGapi (Resolved [trackerCalendar])
                     (events_list onlineGapi)) signedIn.
Proof.
  assert (Forall (fun x => isTargetCalendar x = false)
            [mkCalendar "cal0" "Work"]) as Hb by (repeat constructor).
  assert (isTargetCalendar trackerCalendar = true) as Hc by reflexivity.
  split; [exact Hb|]. split; [exact Hc|].
  exact (proj1 (first_matching_calendar_is_read [mkCalendar "cal0" "Work"] []
                  trackerCalendar (events_list onlineGapi) signedIn Hb Hc)).
Defined.

Lemma day_total_is_the_play_of_its_date_witness :
  scenarioSecondEntry ∈ chartData 0 scenarioNow scenarioSessions
  /\ (dailyPlay scenarioSecondEntry
      == Qsum (map duration
                 (filter (fun s => JSDate.isoDay (start s)
                                   = date scenarioSecondEntry)
                    scenarioSessions)))%Q.
Proof.
  split; [exact scenarioSecondEntry_in_series|].
  exact (proj1 (day_total_is_the_play_of_its_date 0 scenarioNow
                  scenarioSessions scenarioSecondEntry
                  scenarioSecondEntry_in_series)).
Defined.

Lemma average_moves_towards_the_day_witness :
  chartData 0 scenarioNow scenarioSessions !! 0%nat = Some scenarioFirstEntry
  /\ chartData 0 scenarioNow scenarioSessions !! 1%nat
     = Some scenarioSecondEntry
  /\ (dailyPlay scenarioSecondEntry < average scenarioFirstEntry)%Q
  /\ (average scenarioSecondEntry < average scenarioFirstEntry)%Q.
Proof.
  assert (chartData 0 scenarioNow scenarioSessions !! 0%nat
          = Some scenarioFirstEntry) as H0 by reflexivity.
  assert (chartData 0 scenarioNow scenarioSessions !! 1%nat
          = Some scenarioSecondEntry) as H1 by reflexivity.
  assert (dailyPlay scenarioSecondEntry < average scenarioFirstEntry)%Q as Hlt
    by (unfold Qlt; simpl; lia).
  split; [exact H0|]. split; [exact H1|]. split; [exact Hlt|].
  exact (proj1 (proj2 (average_moves_towards_the_day 0 scenarioNow
                         scenarioSessions 0 scenarioFirstEntry
                         scenarioSecondEntry H0 H1)) Hlt).
Defined.

Lemma scenario_durations_not_negative :
  Forall (fun s => 0 <= duration s)%Q scenarioSessions.
Proof. repeat constructor; unfold Qle; simpl; lia. Qed.

Lemma averages_not_negative_witness :
  Forall (fun s => 0 <= duration s)%Q scenarioSessions
  /\ scenarioSecondEntry ∈ chartData 0 scenarioNow scenarioSessions
  /\ (0 <= dailyPlay scenarioSecondEntry)%Q
  /\ (0 <= average scenarioSecondEntry)%Q.
Proof.
  split; [exact scenario_durations_not_negative|].
  split; [exact scenarioSecondEntry_in_series|].
  exact (averages_not_negative 0 scenarioNow scenarioSessions
           scenarioSecondEntry scenario_durations_not_negative
           scenarioSecondEntry_in_series).
Defined.

Lemma scenarioFirst_earliest : earliest scenarioFirst scenarioSessions.
Proof. unfold scenarioSessions. earliest_of_list. Qed.

Lemma scenario_not_after_today s :
  s ∈ scenarioSessions -> JSDate.isoDay (start s) <= JSDate.isoDay scenarioNow.
Proof.
  unfold scenarioSessions. intros Hs.
  repeat (apply elem_of_cons in Hs as [->|Hs]; [by vm_compute|]).
  by apply elem_of_nil in Hs.
Qed.

Lemma utc_counts_every_session_witness :
  earliest scenarioFirst scenarioSessions
  /\ (∀ s, s ∈ scenarioSessions ->
           JSDate.isoDay (start s) <= JSDate.isoDay scenarioNow)
  /\ (Qsum (map dailyPlay (chartData 0 scenarioNow scenarioSessions))
      == Qsum (map duration scenarioSessions))%Q.
Proof.
  split; [exact scenarioFirst_earliest|].
  split; [exact scenario_not_after_today|].
  exact (proj1 (proj2 (utc_counts_every_session scenarioNow scenarioSessions
                         scenarioFirst scenarioFirst_earliest
                         scenario_not_after_today))).
Defined.



Lemma series_ignores_the_order_witness :
  scenarioSessions ≡ₚ reverse scenarioSessions
  /\ Forall2 sameEntry (chartData 0 scenarioNow scenarioSessions)
       (chartData 0 scenarioNow (reverse scenarioSessions)).
Proof.
  assert (scenarioSessions ≡ₚ reverse scenarioSessions) as Hp
    by (symmetry; apply reverse_Permutation).
  split; [exact Hp|].
  exact (series_ignores_the_order 0 scenarioNow scenarioSessions
           (reverse scenarioSessions) Hp).
Defined.

Lemma series_grows_at_the_end_witness :
  scenarioNow <= scenarioNow + JSDate.msPerDay
  /\ chartData 0 scenarioNow scenarioSessions
     `prefix_of` chartData 0 (scenarioNow + JSDate.msPerDay) scenarioSessions.
Proof.
  assert (scenarioNow <= scenarioNow + JSDate.msPerDay) as Hle
    by (by vm_compute).
  split; [exact Hle|].
  exact (series_grows_at_the_end 0 scenarioNow
           (scenarioNow + JSDate.msPerDay) scenarioSessions Hle).
Defined.

Lemma week_is_a_window : (T7D, 7) ∈ lookbackWindows.
Proof. unfold lookbackWindows. right. left. Qed.

Lemma day_is_a_window : (T1D, 1) ∈ lookbackWindows.
Proof. unfold lookbackWindows. left. Qed.



Lemma shorter_window_shows_less_witness :
  (T1D, 1) ∈ lookbackWindows /\ (T7D, 7) ∈ lookbackWindows /\ 1 <= 7
  /\ filteredData scenarioNow T1D fallingSeries
     `sublist_of` filteredData scenarioNow T7D fallingSeries.
Proof.
  assert (1 <= 7) as Hle by lia.
  split; [exact day_is_a_window|]. split; [exact week_is_a_window|].
  split; [exact Hle|].
  exact (proj1 (shorter_window_shows_less scenarioNow fallingSeries T1D T7D
                  1 7 day_is_a_window week_is_a_window Hle)).
Defined.

Lemma flat_trend_is_positive_witness :
  header 0 scenarioNow emptyState
  = mkHeader "Today" "text-green-500" "0m 0s"
      (Some (mkDeltaPill "text-green-400" ArrowUpRight "0s 7D")).
Proof.
  exact (proj2 (flat_trend_is_positive 0 scenarioNow T7D [] emptyState
                  (or_introl eq_refl)) eq_refl eq_refl).
Defined.
